(** * VeryComplicatedClass: the configuration transformer of [_black.py]

    A shallow embedding of the class [VeryComplicatedClass] (its constructor,
    its two helper methods and [process_config]) together with the part of
    Python's dynamic semantics that the class relies on.

    Modelling choices.
    - Python values are a closed inductive type [pyvalue].  [bool] is kept apart
      from [int] as a constructor, but it answers [isinstance(_, int)] and the
      class pattern [int()] like an integer, as in Python.
    - Python integers are unbounded: [Z].  Floats are IEEE binary64: Rocq's
      primitive [float].
    - A [str] inside a value is a Rocq [string], and module [Text] gives
      the operations of [str] on ASCII text.  Module [Unicode] models a [str]
      in full, as a sequence of code points; Python's Unicode case tables
      are no part of the repository and are a parameter there.  The two
      agree on ASCII text.
    - A [dict] is an insertion-ordered association list with [setitem],
      the store [d[k] = v]: it overwrites in place, or appends a new key.
    - A builtin operation applied to an operand it rejects raises: methods
      return in the error monad [result].
    - The object [self] is a record of its two attributes, threaded through
      the loop of [process_config]. *)

From Stdlib Require Import ZArith List String Ascii Bool Lia Permutation.
From Stdlib Require Import Sorted.
From Stdlib Require Import PrimFloat.
Import ListNotations.

Set Warnings "-inexact-float,-register-all".

Local Open Scope string_scope.
Local Open Scope Z_scope.

(** ** Exceptions and the error monad *)

Inductive exn : Type :=
| TypeError
| AttributeError.

Inductive result (A : Type) : Type :=
| Ok (a : A)
| Raise (e : exn).

Arguments Ok {A} a.
Arguments Raise {A} e.

Definition bind {A B : Type} (m : result A) (k : A -> result B) : result B :=
  match m with
  | Ok a => k a
  | Raise e => Raise e
  end.

Notation "x <- m ;; k" := (bind m (fun x => k))
  (at level 61, m at next level, right associativity).

(** A [for] loop whose body may raise: [for x in l: s = body(s, x)]. *)
Fixpoint for_each {A S : Type} (body : S -> A -> result S) (l : list A) (s : S)
  : result S :=
  match l with
  | [] => Ok s
  | x :: l' => s' <- body s x ;; for_each body l' s'
  end.

(** ** Python values *)

Inductive pyvalue : Type :=
| VStr (s : string)
| VInt (n : Z)
| VBool (b : bool)
| VFloat (f : float)
| VNone
| VList (l : list pyvalue)
| VDict (d : list (string * pyvalue))
| VTuple (l : list pyvalue)
| VSet (l : list pyvalue).

(** A [dict] with [str] keys, in insertion order. *)
Definition pydict : Type := list (string * pyvalue).

Definition keys (d : pydict) : list string := map fst d.

(** [d[k] = v]. *)
Fixpoint setitem (k : string) (v : pyvalue) (d : pydict) : pydict :=
  match d with
  | [] => [(k, v)]
  | (k', v') :: d' =>
      if String.eqb k' k then (k', v) :: d' else (k', v') :: setitem k v d'
  end.

(** [d.get(k)]. *)
Fixpoint getitem (k : string) (d : pydict) : option pyvalue :=
  match d with
  | [] => None
  | (k', v') :: d' => if String.eqb k' k then Some v' else getitem k d'
  end.

(** [isinstance(v, int)]: [bool] is a subclass of [int]. *)
Definition isinstance_int (v : pyvalue) : bool :=
  match v with
  | VInt _ | VBool _ => true
  | _ => false
  end.

Definition isinstance_float (v : pyvalue) : bool :=
  match v with
  | VFloat _ => true
  | _ => false
  end.

Definition isinstance_str (v : pyvalue) : bool :=
  match v with
  | VStr _ => true
  | _ => false
  end.

(** ** Text operations of [str], on ASCII text *)

Module Text.

Definition is_upper (c : ascii) : bool :=
  let n := nat_of_ascii c in (65 <=? n)%nat && (n <=? 90)%nat.

Definition is_lower (c : ascii) : bool :=
  let n := nat_of_ascii c in (97 <=? n)%nat && (n <=? 122)%nat.

Definition lower_char (c : ascii) : ascii :=
  if is_upper c then ascii_of_nat (nat_of_ascii c + 32) else c.

Definition upper_char (c : ascii) : ascii :=
  if is_lower c then ascii_of_nat (nat_of_ascii c - 32) else c.

Fixpoint map_chars (f : ascii -> ascii) (s : string) : string :=
  match s with
  | EmptyString => EmptyString
  | String c s' => String (f c) (map_chars f s')
  end.

(** [s.lower()] and [s.upper()]. *)
Definition lower (s : string) : string := map_chars lower_char s.
Definition upper (s : string) : string := map_chars upper_char s.

(** [s.capitalize()]: first character upper-cased, the rest lower-cased. *)
Definition capitalize (s : string) : string :=
  match s with
  | EmptyString => EmptyString
  | String c s' => String (upper_char c) (lower s')
  end.

(** [s[::-1]]. *)
Fixpoint reverse (s : string) : string :=
  match s with
  | EmptyString => EmptyString
  | String c s' => reverse s' ++ String c EmptyString
  end.

Fixpoint startswith (sub s : string) : bool :=
  match sub, s with
  | EmptyString, _ => true
  | String _ _, EmptyString => false
  | String a sub', String b s' => Ascii.eqb a b && startswith sub' s'
  end.

(** [sub in s]. *)
Fixpoint contains (sub s : string) : bool :=
  match s with
  | EmptyString => startswith sub EmptyString
  | String _ s' => startswith sub s || contains sub s'
  end.

(** [s * n]. *)
Fixpoint repeat (s : string) (n : nat) : string :=
  match n with
  | O => EmptyString
  | S n' => s ++ repeat s n'
  end.

End Text.

(** ** Arithmetic and comparison of the builtin numbers

    The right operand is always an [int] literal of the source. *)

Fixpoint float_of_pos (p : positive) : float :=
  match p with
  | xH => 1%float
  | xO p' => PrimFloat.mul 2%float (float_of_pos p')
  | xI p' => PrimFloat.add (PrimFloat.mul 2%float (float_of_pos p')) 1%float
  end.

(** [float(n)], exact for the literals of the source (below [2^53]). *)
Definition float_of_int (n : Z) : float :=
  match n with
  | Z0 => 0%float
  | Zpos p => float_of_pos p
  | Zneg p => PrimFloat.opp (float_of_pos p)
  end.

(** [v > n]. *)
Definition py_gt (v : pyvalue) (n : Z) : result bool :=
  match v with
  | VInt z => Ok (z >? n)
  | VBool b => Ok (Z.b2z b >? n)
  | VFloat f => Ok (PrimFloat.ltb (float_of_int n) f)
  | _ => Raise TypeError
  end.

(** [v < n]. *)
Definition py_lt (v : pyvalue) (n : Z) : result bool :=
  match v with
  | VInt z => Ok (z <? n)
  | VBool b => Ok (Z.b2z b <? n)
  | VFloat f => Ok (PrimFloat.ltb f (float_of_int n))
  | _ => Raise TypeError
  end.

(** [abs(v)]. *)
Definition py_abs (v : pyvalue) : result pyvalue :=
  match v with
  | VInt z => Ok (VInt (Z.abs z))
  | VBool b => Ok (VInt (Z.b2z b))
  | VFloat f => Ok (VFloat (PrimFloat.abs f))
  | _ => Raise TypeError
  end.

(** [v * n]: product of numbers, repetition of sequences. *)
Definition py_mul (v : pyvalue) (n : Z) : result pyvalue :=
  match v with
  | VInt z => Ok (VInt (z * n))
  | VBool b => Ok (VInt (Z.b2z b * n))
  | VFloat f => Ok (VFloat (PrimFloat.mul f (float_of_int n)))
  | VStr s => Ok (VStr (Text.repeat s (Z.to_nat n)))
  | VList l => Ok (VList (List.concat (List.repeat l (Z.to_nat n))))
  | VTuple l => Ok (VTuple (List.concat (List.repeat l (Z.to_nat n))))
  | VNone | VDict _ | VSet _ => Raise TypeError
  end.

(** [v + n]. *)
Definition py_add (v : pyvalue) (n : Z) : result pyvalue :=
  match v with
  | VInt z => Ok (VInt (z + n))
  | VBool b => Ok (VInt (Z.b2z b + n))
  | VFloat f => Ok (VFloat (PrimFloat.add f (float_of_int n)))
  | _ => Raise TypeError
  end.

(** ** The class *)

Record VeryComplicatedClass : Type := {
  config : pydict;
  internal_state : pydict
}.

Definition __init__ (config : pydict) : VeryComplicatedClass :=
  {| config := config; internal_state := [] |}.

(** [self.internal_state[key] = v]. *)
Definition set_internal_state (key : string) (v : pyvalue)
  (self : VeryComplicatedClass) : VeryComplicatedClass :=
  {| config := config self;
     internal_state := setitem key v (internal_state self) |}.

Definition _internal_helper (key : string) (value : pyvalue) : result pyvalue :=
  if String.eqb key "multiply" then
    c <- py_gt value 10 ;;
    if (c : bool) then py_mul value 2 else py_mul value 3
  else if String.eqb key "add" then
    c <- py_lt value 0 ;;
    if (c : bool) then
      a <- py_abs value ;;
      c' <- py_gt a 100 ;;
      if (c' : bool) then py_add value 200 else py_add value 50
    else py_add value 10
  else Ok value.

Definition _another_internal_helper (text : pyvalue) : result pyvalue :=
  match text with
  | VStr s =>
      if Text.contains "error" (Text.lower s) then Ok (VStr (Text.upper s))
      else if Text.contains "success" (Text.lower s)
           then Ok (VStr (Text.capitalize s))
           else Ok (VStr (Text.reverse s))
  | _ => Raise AttributeError
  end.

(** The comprehension
    [[elem * 2 for elem in list_val if isinstance(elem, (int, float))]]:
    one step of it. *)
Definition comprehension_step (acc : list pyvalue) (elem : pyvalue)
  : result (list pyvalue) :=
  if isinstance_int elem || isinstance_float elem then
    x <- py_mul elem 2 ;; Ok (acc ++ [x])%list
  else Ok acc.

(** Body of [for elem in list_val] in the short-list arm. *)
Definition new_list_step (new_list : list pyvalue) (elem : pyvalue)
  : result (list pyvalue) :=
  if isinstance_int elem then
    x <- _internal_helper "multiply" elem ;; Ok (new_list ++ [x])%list
  else if isinstance_str elem then
    x <- _another_internal_helper elem ;; Ok (new_list ++ [x])%list
  else Ok (new_list ++ [elem])%list.

(** Body of [for d_key, d_value in dict_val.items()]. *)
Definition nested_result_step (nested_result : pydict) (item : string * pyvalue)
  : result pydict :=
  let '(d_key, d_value) := item in
  if isinstance_int d_value then
    x <- _internal_helper "add" d_value ;; Ok (setitem d_key x nested_result)
  else if isinstance_str d_value then
    x <- _another_internal_helper d_value ;; Ok (setitem d_key x nested_result)
  else Ok (setitem d_key d_value nested_result).

(** Body of [for key, value in self.config.items()]: the [match] statement. *)
Definition process_entry (self : VeryComplicatedClass) (item : string * pyvalue)
  : result VeryComplicatedClass :=
  let '(key, value) := item in
  match value with
  | VStr _ =>
      transformed <- _another_internal_helper value ;;
      Ok (set_internal_state key transformed self)
  | VInt _ | VBool _ =>
      r <- _internal_helper key value ;;
      Ok (set_internal_state key r self)
  | VList list_val =>
      if (5 <? List.length list_val)%nat then
        doubled <- for_each comprehension_step list_val [] ;;
        Ok (set_internal_state key (VList doubled) self)
      else
        new_list <- for_each new_list_step list_val [] ;;
        Ok (set_internal_state key (VList new_list) self)
  | VDict dict_val =>
      nested_result <- for_each nested_result_step dict_val [] ;;
      Ok (set_internal_state key (VDict nested_result) self)
  | VFloat _ | VNone | VTuple _ | VSet _ =>
      Ok (set_internal_state key value self)
  end.

Definition process_config (self : VeryComplicatedClass)
  : result VeryComplicatedClass :=
  for_each process_entry (config self) self.

(** The values of the configuration built in [main]. *)
Definition listData : pyvalue :=
  VList [VInt 5; VStr "hello"; VFloat 3.14; VInt (-2); VInt 10].

Definition anotherList : pyvalue :=
  VList [VInt 1; VInt 2; VInt 3; VInt 4; VInt 5; VInt 6; VInt 7].

Definition nestedDict : pydict :=
  [ ("innerInt", VInt 5); ("innerText", VStr "SUCCESS CASE");
    ("ignored", VFloat 3.1415) ].

Definition complex_config : pydict :=
  [ ("multiply", VInt 12);
    ("add", VInt (-20));
    ("textData", VStr "This might be an error message");
    ("listData", listData);
    ("anotherList", anotherList);
    ("nestedDict", VDict nestedDict);
    ("unhandledType", VSet [VInt 1; VInt 2; VInt 3]) ].

(** ** The rules as the specification words them

    These definitions follow the specification; the theorems below compare
    them with the methods above. *)

(** Text rule. *)
Definition transformText (s : string) : string :=
  if Text.contains "error" (Text.lower s) then Text.upper s
  else if Text.contains "success" (Text.lower s) then Text.capitalize s
  else Text.reverse s.

(** Numeric rule. *)
Definition transformNumber (opSelector : string) (v : Z) : Z :=
  if String.eqb opSelector "multiply" then
    if v >? 10 then v * 2 else v * 3
  else if String.eqb opSelector "add" then
    if v <? 0 then (if Z.abs v >? 100 then v + 200 else v + 50)
    else v + 10
  else v.

(** The numeric rule on a value of integer shape.  A [bool] counts as the
    integer 0 or 1 when the selector asks for arithmetic, and is returned as
    it is otherwise. *)
Definition number_rule (opSelector : string) (v : pyvalue) : pyvalue :=
  match v with
  | VInt n => VInt (transformNumber opSelector n)
  | VBool b =>
      if String.eqb opSelector "multiply" || String.eqb opSelector "add"
      then VInt (transformNumber opSelector (Z.b2z b))
      else VBool b
  | _ => v
  end.

(** Numeric shape: integer or floating-point. *)
Definition is_numeric (v : pyvalue) : bool :=
  isinstance_int v || isinstance_float v.

(** A numeric element multiplied by 2. *)
Definition times2 (v : pyvalue) : pyvalue :=
  match v with
  | VInt n => VInt (n * 2)
  | VBool b => VInt (Z.b2z b * 2)
  | VFloat f => VFloat (PrimFloat.mul f 2%float)
  | _ => v
  end.

(** Sequence of more than 5 elements: numeric elements doubled, the others
    dropped. *)
Definition long_sequence_rule (l : list pyvalue) : list pyvalue :=
  map times2 (filter is_numeric l).

(** Element of a sequence of at most 5 elements. *)
Definition element_rule (elem : pyvalue) : pyvalue :=
  match elem with
  | VInt _ | VBool _ => number_rule "multiply" elem
  | VStr s => VStr (transformText s)
  | _ => elem
  end.

(** Value of an inner mapping. *)
Definition inner_value_rule (d_value : pyvalue) : pyvalue :=
  match d_value with
  | VInt _ | VBool _ => number_rule "add" d_value
  | VStr s => VStr (transformText s)
  | _ => d_value
  end.

(** Storing [f] of every value of [d], item after item, into [acc]. *)
Definition store_all (f : string -> pyvalue -> pyvalue) (d acc : pydict)
  : pydict :=
  fold_left (fun acc item => setitem (fst item) (f (fst item) (snd item)) acc)
            d acc.

(** The value that [process_config] stores for the entry [(key, value)]. *)
Definition transform_entry (key : string) (value : pyvalue) : pyvalue :=
  match value with
  | VStr s => VStr (transformText s)
  | VInt _ | VBool _ => number_rule key value
  | VList list_val =>
      if (5 <? List.length list_val)%nat
      then VList (long_sequence_rule list_val)
      else VList (map element_rule list_val)
  | VDict dict_val => VDict (store_all (fun _ => inner_value_rule) dict_val [])
  | VFloat _ | VNone | VTuple _ | VSet _ => value
  end.

(** The same values under the same keys, in the same order. *)
Definition map_values (f : string -> pyvalue -> pyvalue) (d : pydict)
  : pydict :=
  map (fun item => (fst item, f (fst item) (snd item))) d.

(** [d1 == d2] on dictionaries: the same value, or none, under every key. *)
Definition dict_eq (d1 d2 : pydict) : Prop :=
  forall k, getitem k d1 = getitem k d2.

(** The caller rebinds (or rewrites in place) the configuration of a
    transformer between two calls: [self.config] is a public attribute and
    aliases the caller's dictionary. *)
Definition set_config (c : pydict) (self : VeryComplicatedClass)
  : VeryComplicatedClass :=
  {| config := c; internal_state := internal_state self |}.

(** [n] calls of [process_config] in a row on the same object. *)
Fixpoint process_config_times (n : nat) (self : VeryComplicatedClass)
  : result VeryComplicatedClass :=
  match n with
  | O => Ok self
  | S n' => self' <- process_config self ;; process_config_times n' self'
  end.

(** The states a transformer goes through: built by the constructor, then
    any number of calls of [process_config], the caller being free to change
    the configuration in between. *)
Inductive lifecycle : VeryComplicatedClass -> Prop :=
| lifecycle_init (c : pydict) : lifecycle (__init__ c)
| lifecycle_call (self self' : VeryComplicatedClass) :
    lifecycle self -> process_config self = Ok self' -> lifecycle self'
| lifecycle_set_config (c : pydict) (self : VeryComplicatedClass) :
    lifecycle self -> lifecycle (set_config c self).

(** ** The other classes and functions of the module *)

(** [range(n)]: the integers from 0 up to [n - 1], none when [n <= 0]. *)
Definition range (n : Z) : list Z := map Z.of_nat (seq 0 (Z.to_nat n)).

(** [enumerate(l)], counting from [idx]. *)
Fixpoint enumerate_from {A : Type} (idx : Z) (l : list A) : list (Z * A) :=
  match l with
  | [] => []
  | x :: l' => (idx, x) :: enumerate_from (idx + 1) l'
  end.

Definition enumerate {A : Type} (l : list A) : list (Z * A) :=
  enumerate_from 0 l.

Module MyUtilityClass.

Record t : Type := {
  name : string;
  value : Z
}.

Definition __init__ (name : string) (value : Z) : t :=
  {| name := name; value := value |}.

(** The test of the loop body:
    [(i % 2 == 0 and i < 10) or (i > 15 and i % 3 == 0)]. *)
Definition selected (i : Z) : bool :=
  ((i mod 2 =? 0) && (i <? 10)) || ((i >? 15) && (i mod 3 =? 0)).

Definition process (self : t) : list Z :=
  fold_left (fun result i => if selected i then (result ++ [i])%list else result)
            (range (value self)) [].

End MyUtilityClass.

(** The generator [fibonacci_generator], as the list of the values it
    yields.  The [while] loop runs on fuel: [None] when the fuel runs out
    before the loop ends. *)
Fixpoint fibonacci_loop (fuel : nat) (a b limit : Z) : option (list Z) :=
  match fuel with
  | O => None
  | S fuel' =>
      if a <=? limit
      then option_map (cons a) (fibonacci_loop fuel' b (a + b) limit)
      else Some []
  end.

Definition fibonacci_generator (fuel : nat) (limit : Z) : option (list Z) :=
  fibonacci_loop fuel 0 1 limit.

(** The Fibonacci numbers, by their recurrence. *)
Fixpoint fib (n : nat) : Z :=
  match n with
  | O => 0
  | S n' =>
      match n' with
      | O => 1
      | S n'' => fib n' + fib n''
      end
  end.

(** The model [User].  Its construction runs the validator [check_age] on the
    age; a [ValueError] of the validator makes the construction fail.  The
    field conversions of the base class are no part of the module: names are
    taken as strings and ages as integers. *)
Module User.

Record t : Type := {
  username : string;
  age : Z
}.

Inductive validated (A : Type) : Type :=
| Valid (a : A)
| ValueError (msg : string).

Arguments Valid {A} a.
Arguments ValueError {A} msg.

Definition check_age (v : Z) : validated Z :=
  if v <? 0 then ValueError "Age must be positive." else Valid v.

(** [User(username=..., age=...)]. *)
Definition new (username : string) (age : Z) : validated t :=
  match check_age age with
  | Valid v => Valid {| username := username; age := v |}
  | ValueError msg => ValueError msg
  end.

(** A list comprehension whose element expression may fail: elements are
    built from left to right and the first failure ends it. *)
Fixpoint comprehension {A B : Type} (f : A -> validated B) (l : list A)
  : validated (list B) :=
  match l with
  | [] => Valid []
  | x :: l' =>
      match f x with
      | ValueError msg => ValueError msg
      | Valid y =>
          match comprehension f l' with
          | ValueError msg => ValueError msg
          | Valid ys => Valid (y :: ys)
          end
      end
  end.

End User.

Definition create_users (names : list string) (starting_age : Z)
  : User.validated (list User.t) :=
  User.comprehension
    (fun item => User.new (snd item) (fst item + starting_age))
    (enumerate names).

(** ** Text in full: [str] as a sequence of code points

    [str.lower], [str.upper] and [str.capitalize] follow the Unicode case
    tables of the interpreter.  The tables are not in the repository: the
    three methods are a parameter, [CaseTables], and [ascii_faithful] says
    what they do on ASCII text. *)

Module Unicode.

Definition codepoint : Type := N.

Definition str : Type := list codepoint.

(** The [str] of an ASCII literal of the source. *)
Definition of_string (s : string) : str :=
  map N_of_ascii (list_ascii_of_string s).

Definition is_ascii (s : str) : bool := forallb (fun c => (c <? 128)%N) s.

Definition ascii_lower (c : codepoint) : codepoint :=
  if ((65 <=? c) && (c <=? 90))%N then (c + 32)%N else c.

Definition ascii_upper (c : codepoint) : codepoint :=
  if ((97 <=? c) && (c <=? 122))%N then (c - 32)%N else c.

Definition ascii_capitalize (s : str) : str :=
  match s with
  | [] => []
  | c :: s' => ascii_upper c :: map ascii_lower s'
  end.

(** [s.lower()], [s.upper()] and [s.capitalize()]. *)
Record CaseTables : Type := {
  lower : str -> str;
  upper : str -> str;
  capitalize : str -> str
}.

(** On ASCII text the three methods convert the letters A-Z and a-z and
    nothing else; [capitalize] upper-cases the first character and
    lower-cases the rest. *)
Definition ascii_faithful (T : CaseTables) : Prop :=
  forall s,
    is_ascii s = true ->
    lower T s = map ascii_lower s
    /\ upper T s = map ascii_upper s
    /\ capitalize T s = ascii_capitalize s.

(** The tables cut down to ASCII: every other code point is left as it
    is. *)
Definition ascii_tables : CaseTables :=
  {| lower := map ascii_lower;
     upper := map ascii_upper;
     capitalize := ascii_capitalize |}.

Fixpoint startswith (sub s : str) : bool :=
  match sub, s with
  | [], _ => true
  | _ :: _, [] => false
  | a :: sub', b :: s' => N.eqb a b && startswith sub' s'
  end.

(** [sub in s]. *)
Fixpoint contains (sub s : str) : bool :=
  match s with
  | [] => startswith sub []
  | _ :: s' => startswith sub s || contains sub s'
  end.

Definition _another_internal_helper (T : CaseTables) (text : str) : str :=
  if contains (of_string "error") (lower T text) then upper T text
  else if contains (of_string "success") (lower T text) then capitalize T text
  else rev text.  (* text[::-1] *)

End Unicode.

(** * Properties *)

(** ** The text operations *)

Module TextFacts.
Import Text.

Lemma startswith_iff (sub s : string) :
  startswith sub s = true <-> exists b, s = (sub ++ b)%string.
Proof.
  revert s. induction sub as [|a sub IH]; intros s; simpl.
  - split; [intros _; now exists s | reflexivity].
  - destruct s as [|c s].
    + split; [discriminate | intros [b Hb]; discriminate].
    + rewrite andb_true_iff, Ascii.eqb_eq, IH. split.
      * intros [-> [b ->]]. now exists b.
      * intros [b Hb]. injection Hb as -> ->. split; [reflexivity | now exists b].
Qed.

(** [contains sub s] is Python's [sub in s]: [sub] occurs in [s]. *)
Lemma contains_iff (sub s : string) :
  contains sub s = true <-> exists a b, s = (a ++ sub ++ b)%string.
Proof.
  induction s as [|c s IH]; simpl.
  - rewrite startswith_iff. split.
    + intros [b Hb]. now exists EmptyString, b.
    + intros [a [b Hab]]. destruct a; [now exists b | discriminate].
  - rewrite orb_true_iff, startswith_iff, IH. split.
    + intros [[b Hb] | [a [b ->]]].
      * now exists EmptyString, b.
      * now exists (String c a), b.
    + intros [a [b Hab]]. destruct a as [|c' a]; simpl in Hab.
      * left. now exists b.
      * right. injection Hab as -> ->. now exists a, b.
Qed.

Lemma reverse_app (s t : string) :
  reverse (s ++ t) = (reverse t ++ reverse s)%string.
Proof.
  induction s as [|c s IH]; simpl.
  - induction (reverse t) as [|d r IHr]; simpl; [reflexivity | now rewrite <- IHr].
  - rewrite IH. clear IH.
    induction (reverse t) as [|d r IHr]; simpl; [reflexivity | now rewrite IHr].
Qed.

(** Reversing twice gives the string back. *)
Lemma reverse_involutive (s : string) : reverse (reverse s) = s.
Proof.
  induction s as [|c s IH]; simpl; [reflexivity|].
  rewrite reverse_app, IH. reflexivity.
Qed.

(** [reverse] is the reversal of the list of characters. *)
Lemma reverse_chars (s : string) :
  list_ascii_of_string (reverse s) = rev (list_ascii_of_string s).
Proof.
  induction s as [|c s IH]; simpl; [reflexivity|].
  rewrite <- IH. clear IH.
  induction (reverse s) as [|d r IHr]; simpl; [reflexivity | now rewrite IHr].
Qed.

Lemma length_map_chars (f : ascii -> ascii) (s : string) :
  String.length (map_chars f s) = String.length s.
Proof. induction s; simpl; congruence. Qed.

(** Lower-casing leaves no ASCII capital behind. *)
Lemma is_upper_lower_char (c : ascii) : is_upper (lower_char c) = false.
Proof.
  destruct c as [[] [] [] [] [] [] [] []]; reflexivity.
Qed.

Lemma is_lower_upper_char (c : ascii) : is_lower (upper_char c) = false.
Proof.
  destruct c as [[] [] [] [] [] [] [] []]; reflexivity.
Qed.

(** The two conversions differ on letters only, and agree up to case. *)
Lemma lower_upper_char (c : ascii) : lower_char (upper_char c) = lower_char c.
Proof.
  destruct c as [[] [] [] [] [] [] [] []]; reflexivity.
Qed.

End TextFacts.

(** ** Dictionaries *)

Module DictFacts.

Lemma getitem_setitem_same (k : string) (v : pyvalue) (d : pydict) :
  getitem k (setitem k v d) = Some v.
Proof.
  induction d as [|[k' v'] d IH]; simpl.
  - now rewrite String.eqb_refl.
  - destruct (String.eqb k' k) eqn:E; simpl; rewrite E; [reflexivity | exact IH].
Qed.

Lemma getitem_setitem_other (k k' : string) (v : pyvalue) (d : pydict) :
  k <> k' -> getitem k' (setitem k v d) = getitem k' d.
Proof.
  intros Hne. induction d as [|[k0 v0] d IH]; simpl.
  - destruct (String.eqb k k') eqn:E; [|reflexivity].
    apply String.eqb_eq in E. contradiction.
  - destruct (String.eqb k0 k) eqn:E; simpl.
    + apply String.eqb_eq in E. subst k0.
      destruct (String.eqb k k') eqn:E'; [|reflexivity].
      apply String.eqb_eq in E'. contradiction.
    + now rewrite IH.
Qed.

(** A store never removes a key, and adds at most its own. *)
Lemma in_keys_setitem (k k' : string) (v : pyvalue) (d : pydict) :
  In k' (keys (setitem k v d)) <-> k' = k \/ In k' (keys d).
Proof.
  induction d as [|[k0 v0] d IH]; simpl.
  - intuition congruence.
  - destruct (String.eqb k0 k) eqn:E; simpl.
    + apply String.eqb_eq in E. subst k0. intuition congruence.
    + rewrite IH. intuition congruence.
Qed.

(** A store under a new key appends the item. *)
Lemma setitem_fresh (k : string) (v : pyvalue) (d : pydict) :
  ~ In k (keys d) -> setitem k v d = (d ++ [(k, v)])%list.
Proof.
  induction d as [|[k0 v0] d IH]; simpl; intros Hk; [reflexivity|].
  destruct (String.eqb k0 k) eqn:E.
  - apply String.eqb_eq in E. tauto.
  - rewrite IH; tauto.
Qed.

(** A store under a bound key leaves the keys as they are. *)
Lemma keys_setitem_bound (k : string) (v : pyvalue) (d : pydict) :
  In k (keys d) -> keys (setitem k v d) = keys d.
Proof.
  induction d as [|[k0 v0] d IH]; simpl; intros Hk; [contradiction|].
  destruct (String.eqb k0 k) eqn:E; simpl; [reflexivity|].
  f_equal. apply IH. destruct Hk as [->|Hk]; [|exact Hk].
  now rewrite String.eqb_refl in E.
Qed.

(** Keys stay pairwise distinct. *)
Lemma NoDup_keys_setitem (k : string) (v : pyvalue) (d : pydict) :
  NoDup (keys d) -> NoDup (keys (setitem k v d)).
Proof.
  intros Hd. destruct (in_dec string_dec k (keys d)) as [Hin|Hnin].
  - now rewrite keys_setitem_bound.
  - rewrite setitem_fresh by exact Hnin. unfold keys.
    rewrite map_app. simpl.
    apply NoDup_app; [exact Hd | repeat constructor; simpl; tauto |].
    intros x Hx [<-|[]]. exact (Hnin Hx).
Qed.

Lemma getitem_None (k : string) (d : pydict) :
  getitem k d = None <-> ~ In k (keys d).
Proof.
  induction d as [|[k0 v0] d IH]; simpl; [tauto|].
  destruct (String.eqb k0 k) eqn:E.
  - apply String.eqb_eq in E. split; [discriminate | tauto].
  - apply String.eqb_neq in E. rewrite IH. tauto.
Qed.

Lemma getitem_In (k : string) (v : pyvalue) (d : pydict) :
  NoDup (keys d) -> In (k, v) d -> getitem k d = Some v.
Proof.
  induction d as [|[k0 v0] d IH]; simpl; intros Hd Hin; [contradiction|].
  inversion Hd as [|? ? Hk0 Hd']; subst.
  destruct Hin as [Heq|Hin].
  - injection Heq as -> ->. now rewrite String.eqb_refl.
  - destruct (String.eqb k0 k) eqn:E; [|auto].
    apply String.eqb_eq in E. subst k0. exfalso. apply Hk0.
    change k with (fst (k, v)). now apply in_map.
Qed.

Lemma getitem_Some_In (k : string) (v : pyvalue) (d : pydict) :
  getitem k d = Some v -> In (k, v) d.
Proof.
  induction d as [|[k0 v0] d IH]; simpl; [discriminate|].
  destruct (String.eqb k0 k) eqn:E; [|auto].
  apply String.eqb_eq in E. intros [= ->]. left. congruence.
Qed.

(** With distinct keys, the order of the items does not matter to a
    lookup. *)
Lemma getitem_Permutation (d d' : pydict) :
  NoDup (keys d) -> Permutation d d' -> dict_eq d d'.
Proof.
  intros Hd Hp k.
  assert (Hd' : NoDup (keys d')).
  { eapply Permutation_NoDup; [|exact Hd]. now apply Permutation_map. }
  destruct (getitem k d) as [v|] eqn:E.
  - symmetry. apply getitem_In; [exact Hd'|].
    eapply Permutation_in; [exact Hp|]. now apply getitem_Some_In.
  - symmetry. apply getitem_None. apply getitem_None in E.
    intros Hin. apply E. eapply Permutation_in; [|exact Hin].
    apply Permutation_map. now apply Permutation_sym.
Qed.

Section StoreAll.

Variable f : string -> pyvalue -> pyvalue.

Lemma keys_map_values (d : pydict) :
  keys (map_values f d) = keys d.
Proof.
  unfold keys, map_values. rewrite map_map. reflexivity.
Qed.

Lemma getitem_map_values (k : string) (d : pydict) :
  getitem k (map_values f d) = option_map (f k) (getitem k d).
Proof.
  induction d as [|[k0 v0] d IH]; simpl; [reflexivity|].
  destruct (String.eqb k0 k) eqn:E; [|exact IH].
  apply String.eqb_eq in E. now subst.
Qed.

(** [store_all] into an accumulator: what each key is bound to afterwards. *)
Lemma keys_store_all (d acc : pydict) (k : string) :
  In k (keys (store_all f d acc)) <-> In k (keys acc) \/ In k (keys d).
Proof.
  revert acc. induction d as [|[k0 v0] d IH]; intros acc; simpl.
  - tauto.
  - unfold store_all in *. simpl. rewrite IH, in_keys_setitem.
    intuition congruence.
Qed.

Lemma NoDup_keys_store_all (d acc : pydict) :
  NoDup (keys acc) -> NoDup (keys (store_all f d acc)).
Proof.
  revert acc. induction d as [|[k0 v0] d IH]; intros acc Hacc; simpl.
  - exact Hacc.
  - apply IH. now apply NoDup_keys_setitem.
Qed.

Lemma getitem_store_all_other (d acc : pydict) (k : string) :
  ~ In k (keys d) -> getitem k (store_all f d acc) = getitem k acc.
Proof.
  revert acc. induction d as [|[k0 v0] d IH]; intros acc Hk; simpl.
  - reflexivity.
  - simpl in Hk. unfold store_all in *. simpl. rewrite IH by tauto.
    apply getitem_setitem_other. tauto.
Qed.

Lemma getitem_store_all_bound (d acc : pydict) (k : string) (v : pyvalue) :
  NoDup (keys d) -> In (k, v) d ->
  getitem k (store_all f d acc) = Some (f k v).
Proof.
  revert acc. induction d as [|[k0 v0] d IH]; intros acc Hd Hin; simpl.
  - contradiction.
  - inversion Hd as [|? ? Hk0 Hd']; subst. destruct Hin as [Heq|Hin].
    + injection Heq as -> ->.
      change (getitem k (store_all f d (setitem k (f k v) acc)) = Some (f k v)).
      rewrite getitem_store_all_other by exact Hk0.
      apply getitem_setitem_same.
    + apply (IH _ Hd' Hin).
Qed.

(** Under a key of the processed dictionary, what was stored before does
    not show any more. *)
Lemma getitem_store_all_bound_any (d acc acc' : pydict) (k : string) :
  In k (keys d) ->
  getitem k (store_all f d acc) = getitem k (store_all f d acc').
Proof.
  revert acc acc'. induction d as [|[k0 v0] d IH]; intros acc acc' Hk.
  - contradiction.
  - change (getitem k (store_all f d (setitem k0 (f k0 v0) acc))
            = getitem k (store_all f d (setitem k0 (f k0 v0) acc'))).
    destruct (in_dec string_dec k (keys d)) as [Hin|Hnin].
    + now apply IH.
    + destruct Hk as [Hk|Hk]; [|contradiction]. simpl in Hk. subst k0.
      rewrite !getitem_store_all_other by exact Hnin.
      now rewrite !getitem_setitem_same.
Qed.

(** Storing the items of a dictionary into one that has none of its keys
    appends them in order. *)
Lemma store_all_fresh (d acc : pydict) :
  NoDup (keys d) -> (forall k, In k (keys d) -> ~ In k (keys acc)) ->
  store_all f d acc = (acc ++ map_values f d)%list.
Proof.
  revert acc. induction d as [|[k0 v0] d IH]; intros acc Hd Hdisj; simpl.
  - now rewrite app_nil_r.
  - inversion Hd as [|? ? Hk0 Hd']; subst.
    change (store_all f d (setitem k0 (f k0 v0) acc)
            = (acc ++ (k0, f k0 v0) :: map_values f d)%list).
    rewrite IH; [| exact Hd' |].
    + rewrite setitem_fresh by (apply Hdisj; now left).
      now rewrite <- app_assoc.
    + intros k Hk. rewrite in_keys_setitem. intros [->|Hacc].
      * exact (Hk0 Hk).
      * apply (Hdisj k); [now right | exact Hacc].
Qed.

Lemma store_all_empty (d : pydict) :
  NoDup (keys d) -> store_all f d [] = map_values f d.
Proof.
  intros Hd. rewrite store_all_fresh; [reflexivity | exact Hd |].
  intros k _ [].
Qed.

End StoreAll.

End DictFacts.

(** ** The helper methods *)

Lemma internal_helper_int (key : string) (n : Z) :
  _internal_helper key (VInt n) = Ok (VInt (transformNumber key n)).
Proof.
  unfold _internal_helper, transformNumber.
  destruct (String.eqb key "multiply"); simpl.
  - destruct (n >? 10); reflexivity.
  - destruct (String.eqb key "add"); simpl; [|reflexivity].
    destruct (n <? 0); simpl; [|reflexivity].
    destruct (Z.abs n >? 100); reflexivity.
Qed.

Lemma internal_helper_bool (key : string) (b : bool) :
  _internal_helper key (VBool b) = Ok (number_rule key (VBool b)).
Proof.
  unfold _internal_helper, number_rule, transformNumber.
  destruct (String.eqb key "multiply"); simpl.
  - destruct b; reflexivity.
  - destruct (String.eqb key "add"); simpl; [|reflexivity].
    destruct b; reflexivity.
Qed.

(** On every value of integer shape the numeric helper returns, and
    returns the numeric rule. *)
Lemma internal_helper_isinstance_int (key : string) (v : pyvalue) :
  isinstance_int v = true -> _internal_helper key v = Ok (number_rule key v).
Proof.
  destruct v; simpl; try discriminate; intros _.
  - apply internal_helper_int.
  - apply internal_helper_bool.
Qed.

Lemma another_internal_helper_str (s : string) :
  _another_internal_helper (VStr s) = Ok (VStr (transformText s)).
Proof.
  unfold _another_internal_helper, transformText.
  destruct (Text.contains "error" (Text.lower s)); [reflexivity|].
  destruct (Text.contains "success" (Text.lower s)); reflexivity.
Qed.

(** Doubling a numeric element never raises. *)
Lemma py_mul_numeric (v : pyvalue) :
  is_numeric v = true -> py_mul v 2 = Ok (times2 v).
Proof.
  destruct v; simpl; try discriminate; reflexivity.
Qed.

(** Outside the guards of [process_config] the helpers do raise. *)
Example internal_helper_raises :
  _internal_helper "multiply" (VStr "12") = Raise TypeError
  /\ _internal_helper "add" VNone = Raise TypeError
  /\ _internal_helper "other" (VStr "12") = Ok (VStr "12").
Proof. repeat split; reflexivity. Qed.

Example another_internal_helper_raises :
  _another_internal_helper (VInt 12) = Raise AttributeError
  /\ _another_internal_helper (VList [VStr "error"]) = Raise AttributeError.
Proof. split; reflexivity. Qed.

(** ** The loops of [process_config] *)

Lemma comprehension_loop (list_val acc : list pyvalue) :
  for_each comprehension_step list_val acc
  = Ok (acc ++ long_sequence_rule list_val)%list.
Proof.
  revert acc. unfold long_sequence_rule.
  induction list_val as [|elem l IH]; intros acc; simpl.
  - now rewrite app_nil_r.
  - unfold comprehension_step at 1. fold (is_numeric elem).
    destruct (is_numeric elem) eqn:E; simpl.
    + rewrite (py_mul_numeric _ E). simpl. rewrite IH.
      now rewrite <- app_assoc.
    + apply IH.
Qed.

Lemma new_list_step_rule (new_list : list pyvalue) (elem : pyvalue) :
  new_list_step new_list elem = Ok (new_list ++ [element_rule elem])%list.
Proof.
  unfold new_list_step.
  destruct elem; cbn [isinstance_int isinstance_str];
    rewrite ?another_internal_helper_str, ?internal_helper_int,
      ?internal_helper_bool; reflexivity.
Qed.

Lemma new_list_loop (list_val acc : list pyvalue) :
  for_each new_list_step list_val acc
  = Ok (acc ++ map element_rule list_val)%list.
Proof.
  revert acc. induction list_val as [|elem l IH]; intros acc; simpl.
  - now rewrite app_nil_r.
  - rewrite new_list_step_rule. simpl. rewrite IH.
    now rewrite <- app_assoc.
Qed.

Lemma nested_result_step_rule (nested_result : pydict) (d_key : string)
  (d_value : pyvalue) :
  nested_result_step nested_result (d_key, d_value)
  = Ok (setitem d_key (inner_value_rule d_value) nested_result).
Proof.
  unfold nested_result_step.
  destruct d_value; cbn [isinstance_int isinstance_str];
    rewrite ?another_internal_helper_str, ?internal_helper_int,
      ?internal_helper_bool; reflexivity.
Qed.

Lemma nested_result_loop (dict_val acc : pydict) :
  for_each nested_result_step dict_val acc
  = Ok (store_all (fun _ => inner_value_rule) dict_val acc).
Proof.
  revert acc. induction dict_val as [|[d_key d_value] d IH]; intros acc.
  - reflexivity.
  - cbn [for_each]. rewrite nested_result_step_rule. apply IH.
Qed.

(** One round of the outer loop: the entry's arm runs to its end and stores
    one value under the entry's key. *)
Lemma process_entry_rule (self : VeryComplicatedClass) (key : string)
  (value : pyvalue) :
  process_entry self (key, value)
  = Ok (set_internal_state key (transform_entry key value) self).
Proof.
  unfold process_entry, transform_entry.
  destruct value as [s|n|b|f| |list_val|dict_val|l|l]; try reflexivity.
  - now rewrite another_internal_helper_str.
  - now rewrite internal_helper_int.
  - now rewrite internal_helper_bool.
  - destruct (5 <? List.length list_val)%nat.
    + now rewrite comprehension_loop.
    + now rewrite new_list_loop.
  - now rewrite nested_result_loop.
Qed.

Lemma process_entries (items : pydict) (self : VeryComplicatedClass) :
  for_each process_entry items self
  = Ok {| config := config self;
          internal_state :=
            store_all transform_entry items (internal_state self) |}.
Proof.
  revert self. induction items as [|[key value] items IH]; intros self.
  - now destruct self.
  - cbn [for_each]. rewrite process_entry_rule. cbn [bind]. rewrite IH.
    reflexivity.
Qed.

(** [process_config] returns; it leaves [config] alone and stores one value
    per entry into [internal_state]. *)
Lemma process_config_rule (self : VeryComplicatedClass) :
  process_config self
  = Ok {| config := config self;
          internal_state :=
            store_all transform_entry (config self) (internal_state self) |}.
Proof. apply process_entries. Qed.

(** The run of [main]: what [show_state] prints. *)
Example process_config_main :
  process_config (__init__ complex_config)
  = Ok {| config := complex_config;
          internal_state :=
            [ ("multiply", VInt 24);
              ("add", VInt 30);
              ("textData", VStr "THIS MIGHT BE AN ERROR MESSAGE");
              ("listData",
                VList [VInt 15; VStr "olleh"; VFloat 3.14; VInt (-6); VInt 30]);
              ("anotherList",
                VList [VInt 2; VInt 4; VInt 6; VInt 8; VInt 10; VInt 12;
                       VInt 14]);
              ("nestedDict",
                VDict [ ("innerInt", VInt 15);
                        ("innerText", VStr "Success case");
                        ("ignored", VFloat 3.1415) ]);
              ("unhandledType", VSet [VInt 1; VInt 2; VInt 3]) ] |}.
Proof. reflexivity. Qed.

(** ** The text rule and the numeric rule *)

Lemma transformText_cases (s : string) :
  ((exists a b, Text.lower s = (a ++ "error" ++ b)%string)
    /\ transformText s = Text.upper s)
  \/ (~ (exists a b, Text.lower s = (a ++ "error" ++ b)%string)
      /\ (exists a b, Text.lower s = (a ++ "success" ++ b)%string)
      /\ transformText s = Text.capitalize s)
  \/ (~ (exists a b, Text.lower s = (a ++ "error" ++ b)%string)
      /\ ~ (exists a b, Text.lower s = (a ++ "success" ++ b)%string)
      /\ transformText s = Text.reverse s).
Proof.
  unfold transformText.
  destruct (Text.contains "error" (Text.lower s)) eqn:E.
  - left. split; [now apply TextFacts.contains_iff | reflexivity].
  - right.
    assert (~ (exists a b, Text.lower s = (a ++ "error" ++ b)%string)) as HE.
    { intros H. apply TextFacts.contains_iff in H. congruence. }
    destruct (Text.contains "success" (Text.lower s)) eqn:S.
    + left. repeat split; [exact HE | now apply TextFacts.contains_iff].
    + right. repeat split; [exact HE |].
      intros H. apply TextFacts.contains_iff in H. congruence.
Qed.

Lemma transformNumber_cases (opSelector : string) (v : Z) :
  (opSelector = "multiply" /\ v > 10 /\ transformNumber opSelector v = v * 2)
  \/ (opSelector = "multiply" /\ v <= 10
      /\ transformNumber opSelector v = v * 3)
  \/ (opSelector = "add" /\ v < 0 /\ Z.abs v > 100
      /\ transformNumber opSelector v = v + 200)
  \/ (opSelector = "add" /\ v < 0 /\ Z.abs v <= 100
      /\ transformNumber opSelector v = v + 50)
  \/ (opSelector = "add" /\ v >= 0 /\ transformNumber opSelector v = v + 10)
  \/ (opSelector <> "multiply" /\ opSelector <> "add"
      /\ transformNumber opSelector v = v).
Proof.
  unfold transformNumber.
  destruct (String.eqb_spec opSelector "multiply") as [->|Hm].
  - destruct (Z.gtb_spec v 10); [left | right; left]; repeat split; lia.
  - destruct (String.eqb_spec opSelector "add") as [->|Ha].
    + do 2 right. destruct (Z.ltb_spec v 0).
      * destruct (Z.gtb_spec (Z.abs v) 100);
          [left | right; left]; repeat split; lia.
      * do 2 right. left. repeat split; lia.
    + do 5 right. repeat split; assumption.
Qed.

(** ** Text in full *)

Module UnicodeFacts.
Import Unicode.

Lemma code_startswith_iff (sub s : str) :
  startswith sub s = true <-> exists b, s = (sub ++ b)%list.
Proof.
  revert s. induction sub as [|a sub IH]; intros s; simpl.
  - split; [intros _; now exists s | reflexivity].
  - destruct s as [|c s].
    + split; [discriminate | intros [b Hb]; discriminate].
    + rewrite andb_true_iff, N.eqb_eq, IH. split.
      * intros [-> [b ->]]. now exists b.
      * intros [b Hb]. injection Hb as -> ->.
        split; [reflexivity | now exists b].
Qed.

(** [contains sub s] is [sub in s]: [sub] occurs in [s]. *)
Lemma code_contains_iff (sub s : str) :
  contains sub s = true <-> exists a b, s = (a ++ sub ++ b)%list.
Proof.
  induction s as [|c s IH]; simpl.
  - rewrite code_startswith_iff. split.
    + intros [b Hb]. now exists [], b.
    + intros [a [b Hab]]. destruct a; [now exists b | discriminate].
  - rewrite orb_true_iff, code_startswith_iff, IH. split.
    + intros [[b Hb] | [a [b ->]]].
      * now exists [], b.
      * now exists (c :: a), b.
    + intros [a [b Hab]]. destruct a as [|c' a]; simpl in Hab.
      * left. now exists b.
      * right. injection Hab as -> ->. now exists a, b.
Qed.

Lemma ascii_tables_faithful : ascii_faithful ascii_tables.
Proof. intros s _. repeat split. Qed.

(** The ASCII operations of [Text] are those of [Unicode] on the code
    points of the string. *)
Lemma of_string_cons (c : ascii) (s : string) :
  of_string (String c s) = N_of_ascii c :: of_string s.
Proof. reflexivity. Qed.

Lemma lower_char_code (c : ascii) :
  N_of_ascii (Text.lower_char c) = ascii_lower (N_of_ascii c).
Proof. destruct c as [[] [] [] [] [] [] [] []]; reflexivity. Qed.

Lemma upper_char_code (c : ascii) :
  N_of_ascii (Text.upper_char c) = ascii_upper (N_of_ascii c).
Proof. destruct c as [[] [] [] [] [] [] [] []]; reflexivity. Qed.

Lemma of_string_lower (s : string) :
  of_string (Text.lower s) = map ascii_lower (of_string s).
Proof.
  induction s as [|c s IH]; [reflexivity|].
  change (Text.lower (String c s))
    with (String (Text.lower_char c) (Text.lower s)).
  rewrite !of_string_cons, IH, lower_char_code. reflexivity.
Qed.

Lemma of_string_upper (s : string) :
  of_string (Text.upper s) = map ascii_upper (of_string s).
Proof.
  induction s as [|c s IH]; [reflexivity|].
  change (Text.upper (String c s))
    with (String (Text.upper_char c) (Text.upper s)).
  rewrite !of_string_cons, IH, upper_char_code. reflexivity.
Qed.

Lemma of_string_capitalize (s : string) :
  of_string (Text.capitalize s) = ascii_capitalize (of_string s).
Proof.
  destruct s as [|c s]; [reflexivity|].
  change (Text.capitalize (String c s))
    with (String (Text.upper_char c) (Text.lower s)).
  rewrite !of_string_cons, of_string_lower, upper_char_code. reflexivity.
Qed.

Lemma of_string_reverse (s : string) :
  of_string (Text.reverse s) = rev (of_string s).
Proof.
  unfold of_string. now rewrite TextFacts.reverse_chars, map_rev.
Qed.

Lemma eqb_code (a b : ascii) :
  Ascii.eqb a b = N.eqb (N_of_ascii a) (N_of_ascii b).
Proof.
  destruct (Ascii.eqb_spec a b) as [->|Hne].
  - now rewrite N.eqb_refl.
  - symmetry. apply N.eqb_neq. intros Heq. apply Hne.
    rewrite <- (ascii_N_embedding a), <- (ascii_N_embedding b).
    now rewrite Heq.
Qed.

Lemma startswith_of_string (sub s : string) :
  startswith (of_string sub) (of_string s) = Text.startswith sub s.
Proof.
  revert s. induction sub as [|a sub IH]; intros s; [reflexivity|].
  destruct s as [|b s]; [reflexivity|].
  rewrite !of_string_cons. simpl. now rewrite IH, eqb_code.
Qed.

Lemma contains_of_string (sub s : string) :
  contains (of_string sub) (of_string s) = Text.contains sub s.
Proof.
  induction s as [|b s IH].
  - apply (startswith_of_string sub EmptyString).
  - rewrite of_string_cons. cbn [contains Text.contains].
    rewrite <- of_string_cons, startswith_of_string, IH. reflexivity.
Qed.

(** On ASCII text the helper over code points, with any tables that are
    right on ASCII, returns what the helper over [Text] returns. *)
Lemma helper_of_string (T : CaseTables) (s : string) :
  ascii_faithful T -> is_ascii (of_string s) = true ->
  Unicode._another_internal_helper T (of_string s)
  = of_string (transformText s).
Proof.
  intros HT Hs. destruct (HT _ Hs) as (Hlower & Hupper & Hcap).
  unfold Unicode._another_internal_helper, transformText.
  rewrite Hlower, Hupper, Hcap.
  rewrite <- of_string_lower, !contains_of_string.
  destruct (Text.contains "error" (Text.lower s));
    [symmetry; apply of_string_upper|].
  destruct (Text.contains "success" (Text.lower s));
    [symmetry; apply of_string_capitalize|].
  symmetry. apply of_string_reverse.
Qed.

(** Beyond ASCII the tables decide: with the entries of Python's tables for
    the string 'error \u00e9' the helper returns 'ERROR \u00c9'. *)
Example helper_beyond_ascii (T : CaseTables) :
  lower T (of_string "error " ++ [233%N])%list
  = (of_string "error " ++ [233%N])%list ->
  upper T (of_string "error " ++ [233%N])%list
  = (of_string "ERROR " ++ [201%N])%list ->
  Unicode._another_internal_helper T (of_string "error " ++ [233%N])%list
  = (of_string "ERROR " ++ [201%N])%list.
Proof.
  intros Hlower Hupper. unfold Unicode._another_internal_helper.
  rewrite Hlower. exact Hupper.
Qed.

Lemma helper_cases (T : CaseTables) (s : str) :
  ((exists a b, lower T s = (a ++ of_string "error" ++ b)%list)
    /\ Unicode._another_internal_helper T s = upper T s)
  \/ (~ (exists a b, lower T s = (a ++ of_string "error" ++ b)%list)
      /\ (exists a b, lower T s = (a ++ of_string "success" ++ b)%list)
      /\ Unicode._another_internal_helper T s = capitalize T s)
  \/ (~ (exists a b, lower T s = (a ++ of_string "error" ++ b)%list)
      /\ ~ (exists a b, lower T s = (a ++ of_string "success" ++ b)%list)
      /\ Unicode._another_internal_helper T s = rev s).
Proof.
  unfold Unicode._another_internal_helper.
  destruct (contains (of_string "error") (lower T s)) eqn:E.
  - left. split; [now apply code_contains_iff | reflexivity].
  - right.
    assert (~ (exists a b, lower T s = (a ++ of_string "error" ++ b)%list))
      as HE.
    { intros H. apply code_contains_iff in H. congruence. }
    destruct (contains (of_string "success") (lower T s)) eqn:S.
    + left. repeat split; [exact HE | now apply code_contains_iff].
    + right. repeat split; [exact HE |].
      intros H. apply code_contains_iff in H. congruence.
Qed.

End UnicodeFacts.

(** C2.  On every string, a sequence of code points, the text helper
    returns: the string upper-cased when its lower-case form contains
    "error"; else the string capitalized ([str.capitalize]: first character
    capitalized, the rest lower-cased) when the lower-case form contains
    "success"; else the string reversed code point by code point.  This
    holds whatever the case tables of the interpreter are.  With tables that
    are right on ASCII the three sample strings give "THIS HAS AN ERROR",
    "Great success" and "olleh", and on every ASCII string the helper that
    [process_config] calls returns the same string. *)
Theorem another_internal_helper_text_rule (T : Unicode.CaseTables)
  (s : Unicode.str) :
  (((exists a b,
        Unicode.lower T s = (a ++ Unicode.of_string "error" ++ b)%list)
     /\ Unicode._another_internal_helper T s = Unicode.upper T s)
   \/ (~ (exists a b,
            Unicode.lower T s = (a ++ Unicode.of_string "error" ++ b)%list)
       /\ (exists a b,
              Unicode.lower T s = (a ++ Unicode.of_string "success" ++ b)%list)
       /\ Unicode._another_internal_helper T s = Unicode.capitalize T s)
   \/ (~ (exists a b,
            Unicode.lower T s = (a ++ Unicode.of_string "error" ++ b)%list)
       /\ ~ (exists a b,
               Unicode.lower T s
               = (a ++ Unicode.of_string "success" ++ b)%list)
       /\ Unicode._another_internal_helper T s = rev s))
  /\ (Unicode.ascii_faithful T ->
      Unicode._another_internal_helper T
        (Unicode.of_string "this has an ERROR")
      = Unicode.of_string "THIS HAS AN ERROR"
      /\ Unicode._another_internal_helper T (Unicode.of_string "great success")
         = Unicode.of_string "Great success"
      /\ Unicode._another_internal_helper T (Unicode.of_string "hello")
         = Unicode.of_string "olleh"
      /\ (forall a : string,
            Unicode.is_ascii (Unicode.of_string a) = true ->
            exists r,
              _another_internal_helper (VStr a) = Ok (VStr r)
              /\ Unicode._another_internal_helper T (Unicode.of_string a)
                 = Unicode.of_string r))
  /\ _another_internal_helper (VStr "this has an ERROR")
     = Ok (VStr "THIS HAS AN ERROR")
  /\ _another_internal_helper (VStr "great success")
     = Ok (VStr "Great success")
  /\ _another_internal_helper (VStr "hello") = Ok (VStr "olleh").
Proof.
  split; [apply UnicodeFacts.helper_cases|].
  split; [|repeat split; reflexivity].
  intros HT.
  split; [now rewrite UnicodeFacts.helper_of_string|].
  split; [now rewrite UnicodeFacts.helper_of_string|].
  split; [now rewrite UnicodeFacts.helper_of_string|].
  intros a Ha. exists (transformText a).
  split; [apply another_internal_helper_str|].
  now apply UnicodeFacts.helper_of_string.
Qed.

Lemma another_internal_helper_text_rule_witness :
  Unicode._another_internal_helper Unicode.ascii_tables
    (Unicode.of_string "this has an ERROR")
  = Unicode.of_string "THIS HAS AN ERROR"
  /\ Unicode._another_internal_helper Unicode.ascii_tables
       (Unicode.of_string "great success")
     = Unicode.of_string "Great success"
  /\ Unicode._another_internal_helper Unicode.ascii_tables
       (Unicode.of_string "hello")
     = Unicode.of_string "olleh"
  /\ (forall a : string,
        Unicode.is_ascii (Unicode.of_string a) = true ->
        exists r,
          _another_internal_helper (VStr a) = Ok (VStr r)
          /\ Unicode._another_internal_helper Unicode.ascii_tables
               (Unicode.of_string a)
             = Unicode.of_string r).
Proof.
  apply (proj1 (proj2 (another_internal_helper_text_rule
                         Unicode.ascii_tables []))).
  intros s _. repeat split.
Defined.

(** C3.  On every integer [v] and selector the numeric helper returns:
    under "multiply", [v*2] if [v > 10] and [v*3] otherwise; under "add",
    [v+200] if [v < 0] and [|v| > 100], [v+50] if [v < 0] and [|v| <= 100],
    [v+10] if [v >= 0]; under any other selector, [v].  The six sample calls
    give 24, 15, 50, 30, 15 and 7. *)
Theorem internal_helper_numeric_rule (opSelector : string) (v : Z) :
  (exists r,
      _internal_helper opSelector (VInt v) = Ok (VInt r)
      /\ r = transformNumber opSelector v
      /\ ((opSelector = "multiply" /\ v > 10 /\ r = v * 2)
          \/ (opSelector = "multiply" /\ v <= 10 /\ r = v * 3)
          \/ (opSelector = "add" /\ v < 0 /\ Z.abs v > 100 /\ r = v + 200)
          \/ (opSelector = "add" /\ v < 0 /\ Z.abs v <= 100 /\ r = v + 50)
          \/ (opSelector = "add" /\ v >= 0 /\ r = v + 10)
          \/ (opSelector <> "multiply" /\ opSelector <> "add" /\ r = v)))
  /\ _internal_helper "multiply" (VInt 12) = Ok (VInt 24)
  /\ _internal_helper "multiply" (VInt 5) = Ok (VInt 15)
  /\ _internal_helper "add" (VInt (-150)) = Ok (VInt 50)
  /\ _internal_helper "add" (VInt (-20)) = Ok (VInt 30)
  /\ _internal_helper "add" (VInt 5) = Ok (VInt 15)
  /\ _internal_helper "other" (VInt 7) = Ok (VInt 7).
Proof.
  split; [|repeat split; reflexivity].
  exists (transformNumber opSelector v). split; [apply internal_helper_int|].
  split; [reflexivity | apply transformNumber_cases].
Qed.

(** ** The arms of the dispatch *)

(** C4.  An entry whose value is a sequence stores a new sequence.  With more
    than 5 elements it holds each numeric (integer or floating-point)
    element multiplied by 2, the others being dropped.  With at most 5 it
    has the same length: each integer element goes through the numeric rule
    under "multiply", each text element through the text rule, and every
    other element is kept.  The two sample sequences give
    [2,4,6,8,10,12,14] and [15,"olleh",3.14,-6,30]. *)
Theorem process_entry_sequence (self : VeryComplicatedClass) (key : string)
  (list_val : list pyvalue) :
  (exists stored,
      process_entry self (key, VList list_val)
      = Ok (set_internal_state key (VList stored) self)
      /\ getitem key (internal_state (set_internal_state key (VList stored) self))
         = Some (VList stored)
      /\ (((5 < List.length list_val)%nat
            /\ stored = map times2 (filter is_numeric list_val))
          \/ ((List.length list_val <= 5)%nat
              /\ stored = map element_rule list_val
              /\ List.length stored = List.length list_val)))
  /\ (forall n,
        _internal_helper "multiply" (VInt n) = Ok (element_rule (VInt n))
        /\ element_rule (VInt n) = VInt (transformNumber "multiply" n))
  /\ (forall b,
        _internal_helper "multiply" (VBool b) = Ok (element_rule (VBool b))
        /\ element_rule (VBool b)
           = VInt (transformNumber "multiply" (Z.b2z b)))
  /\ (forall s,
        _another_internal_helper (VStr s) = Ok (element_rule (VStr s))
        /\ element_rule (VStr s) = VStr (transformText s))
  /\ (forall elem,
        isinstance_int elem || isinstance_str elem = true
        \/ element_rule elem = elem)
  /\ process_config (__init__ [("anotherList", anotherList)])
     = Ok {| config := [("anotherList", anotherList)];
             internal_state :=
               [("anotherList",
                  VList [VInt 2; VInt 4; VInt 6; VInt 8; VInt 10; VInt 12;
                         VInt 14])] |}
  /\ process_config (__init__ [("listData", listData)])
     = Ok {| config := [("listData", listData)];
             internal_state :=
               [("listData",
                  VList [VInt 15; VStr "olleh"; VFloat 3.14; VInt (-6);
                         VInt 30])] |}.
Proof.
  split;
    [|repeat split;
      try reflexivity;
      try apply internal_helper_int;
      try apply internal_helper_bool;
      try apply another_internal_helper_str;
      try (destruct elem; simpl; auto)].
  rewrite process_entry_rule. cbn [transform_entry].
  destruct (Nat.ltb_spec 5 (List.length list_val)) as [Hlong|Hshort].
  - exists (long_sequence_rule list_val). split; [reflexivity|].
    split; [apply DictFacts.getitem_setitem_same|].
    left. split; [exact Hlong | reflexivity].
  - exists (map element_rule list_val). split; [reflexivity|].
    split; [apply DictFacts.getitem_setitem_same|].
    right. split; [exact Hshort|]. split; [reflexivity | apply length_map].
Qed.

(** C5.  An entry whose value is a mapping stores a new mapping with the
    same keys: each integer value goes through the numeric rule under "add",
    each text value through the text rule, and every other value is kept.
    The sample mapping gives innerInt 15, innerText "Success case" and
    ignored 3.1415. *)
Theorem process_entry_mapping (self : VeryComplicatedClass) (key : string)
  (dict_val : pydict) :
  NoDup (keys dict_val) ->
  process_entry self (key, VDict dict_val)
  = Ok (set_internal_state key
          (VDict (map_values (fun _ => inner_value_rule) dict_val)) self)
  /\ keys (map_values (fun _ => inner_value_rule) dict_val) = keys dict_val
  /\ (forall k,
        getitem k (map_values (fun _ => inner_value_rule) dict_val)
        = option_map inner_value_rule (getitem k dict_val))
  /\ (forall n,
        _internal_helper "add" (VInt n) = Ok (inner_value_rule (VInt n))
        /\ inner_value_rule (VInt n) = VInt (transformNumber "add" n))
  /\ (forall b,
        _internal_helper "add" (VBool b) = Ok (inner_value_rule (VBool b))
        /\ inner_value_rule (VBool b) = VInt (transformNumber "add" (Z.b2z b)))
  /\ (forall s,
        _another_internal_helper (VStr s) = Ok (inner_value_rule (VStr s))
        /\ inner_value_rule (VStr s) = VStr (transformText s))
  /\ (forall d_value,
        isinstance_int d_value || isinstance_str d_value = true
        \/ inner_value_rule d_value = d_value)
  /\ process_config (__init__ [("nestedDict", VDict nestedDict)])
     = Ok {| config := [("nestedDict", VDict nestedDict)];
             internal_state :=
               [("nestedDict",
                  VDict [ ("innerInt", VInt 15);
                          ("innerText", VStr "Success case");
                          ("ignored", VFloat 3.1415) ])] |}.
Proof.
  intros Hkeys. split.
  - rewrite process_entry_rule. cbn [transform_entry].
    now rewrite DictFacts.store_all_empty.
  - split; [apply DictFacts.keys_map_values|].
    split; [intros k; apply DictFacts.getitem_map_values|].
    repeat split;
      try reflexivity;
      try apply internal_helper_int;
      try apply internal_helper_bool;
      try apply another_internal_helper_str;
      try (destruct d_value; simpl; auto).
Qed.

Lemma process_entry_mapping_witness :
  NoDup (keys nestedDict)
  /\ process_entry (__init__ []) ("nestedDict", VDict nestedDict)
     = Ok (set_internal_state "nestedDict"
             (VDict (map_values (fun _ => inner_value_rule) nestedDict))
             (__init__ [])).
Proof.
  assert (H : NoDup (keys nestedDict)).
  { repeat constructor; simpl; intuition discriminate. }
  split; [exact H|].
  exact (proj1 (process_entry_mapping (__init__ []) "nestedDict" nestedDict H)).
Defined.

(** C6.  For a top-level integer entry the selector given to the numeric
    helper is the entry's own key: under the key "multiply" or "add" the
    matching arithmetic applies, under any other key the value is stored as
    it is.  Keyed "multiply", 12 gives 24; keyed "add", -20 gives 30. *)
Theorem process_entry_integer (self : VeryComplicatedClass) (key : string)
  (n : Z) :
  (exists r,
      _internal_helper key (VInt n) = Ok (VInt r)
      /\ process_entry self (key, VInt n)
         = Ok (set_internal_state key (VInt r) self)
      /\ ((key = "multiply" /\ r = transformNumber "multiply" n)
          \/ (key = "add" /\ r = transformNumber "add" n)
          \/ (key <> "multiply" /\ key <> "add" /\ r = n)))
  /\ process_config (__init__ [("multiply", VInt 12)])
     = Ok {| config := [("multiply", VInt 12)];
             internal_state := [("multiply", VInt 24)] |}
  /\ process_config (__init__ [("add", VInt (-20))])
     = Ok {| config := [("add", VInt (-20))];
             internal_state := [("add", VInt 30)] |}.
Proof.
  split; [|split; reflexivity].
  exists (transformNumber key n).
  split; [apply internal_helper_int|].
  split; [now rewrite process_entry_rule|].
  destruct (transformNumber_cases key n)
    as [(-> & _)|[(-> & _)|[(-> & _)|[(-> & _)|[(-> & _)|(Hm & Ha & Hr)]]]]];
    auto.
Qed.

(** ** The whole transformation *)

Lemma process_config_fresh (c : pydict) :
  process_config (__init__ c)
  = Ok {| config := c; internal_state := store_all transform_entry c [] |}.
Proof. apply process_config_rule. Qed.

Lemma count_occ_NoDup (l : list string) (k : string) :
  NoDup l ->
  count_occ string_dec l k = if in_dec string_dec k l then 1%nat else 0%nat.
Proof.
  intros Hl. destruct (in_dec string_dec k l) as [Hin|Hnin].
  - apply (proj1 (NoDup_count_occ' string_dec l) Hl k Hin).
  - now apply count_occ_not_In.
Qed.

Lemma process_config_times_config (n : nat) (self : VeryComplicatedClass) :
  exists self',
    process_config_times n self = Ok self' /\ config self' = config self.
Proof.
  revert self. induction n as [|n IH]; intros self; simpl.
  - now exists self.
  - rewrite process_config_rule. cbn [bind].
    destruct (IH {| config := config self;
                    internal_state :=
                      store_all transform_entry (config self)
                                (internal_state self) |})
      as (self' & Hrun & Hcfg).
    exists self'. split; [exact Hrun | exact Hcfg].
Qed.

(** C1.  For every configuration, the empty one included, the transformation
    of a transformer built from it returns a result whose keys are exactly
    the keys of the configuration: every key of the input occurs once in the
    result, and no other key occurs. *)
Theorem process_config_key_set (c : pydict) :
  (exists self',
      process_config (__init__ c) = Ok self'
      /\ (forall k, In k (keys (internal_state self')) <-> In k (keys c))
      /\ NoDup (keys (internal_state self'))
      /\ (forall k,
            count_occ string_dec (keys (internal_state self')) k
            = if in_dec string_dec k (keys c) then 1%nat else 0%nat))
  /\ process_config (__init__ []) = Ok (__init__ []).
Proof.
  split; [|reflexivity].
  rewrite process_config_fresh. eexists. split; [reflexivity|]. cbn [internal_state].
  assert (Hin : forall k,
             In k (keys (store_all transform_entry c [])) <-> In k (keys c)).
  { intros k. rewrite DictFacts.keys_store_all. simpl. tauto. }
  assert (Hnd : NoDup (keys (store_all transform_entry c []))).
  { apply DictFacts.NoDup_keys_store_all. constructor. }
  split; [exact Hin|]. split; [exact Hnd|].
  intros k. rewrite count_occ_NoDup by exact Hnd.
  destruct (in_dec string_dec k (keys (store_all transform_entry c [])))
    as [H|H], (in_dec string_dec k (keys c)) as [H'|H'];
    try reflexivity; apply Hin in H || apply Hin in H'; contradiction.
Qed.

(** C7, as stated, fails.  A transformer is built with the single entry
    "a"; after a first call the caller replaces the configuration by the
    single entry "b"; the second call returns an accumulator that still
    holds "a", a key that is not in the configuration it processed. *)
Lemma process_config_keeps_earlier_entries :
  let first :=
    {| config := [("a", VInt 1)]; internal_state := [("a", VInt 1)] |} in
  process_config (__init__ [("a", VInt 1)]) = Ok first
  /\ process_config (set_config [("b", VInt 2)] first)
     = Ok {| config := [("b", VInt 2)];
             internal_state := [("a", VInt 1); ("b", VInt 2)] |}
  /\ ~ (forall self self',
          lifecycle self -> process_config self = Ok self' ->
          forall k,
            In k (keys (internal_state self')) -> In k (keys (config self))).
Proof.
  split; [reflexivity|]. split; [reflexivity|].
  intros Hall.
  pose (first := {| config := [("a", VInt 1)];
                    internal_state := [("a", VInt 1)] |}).
  assert (Hlife : lifecycle (set_config [("b", VInt 2)] first)).
  { apply lifecycle_set_config.
    apply (lifecycle_call (__init__ [("a", VInt 1)]) first);
      [apply lifecycle_init | reflexivity]. }
  specialize (Hall _ _ Hlife eq_refl "a"). simpl in Hall.
  destruct Hall as [H|[]]; [now left | discriminate H].
Qed.

(** C7, amended.  The accumulator is created empty by the constructor.  A
    call stores the entries derived from the configuration it processes and
    leaves every other entry of the accumulator as it was: a first call on a
    new transformer returns exactly the entries derived from its
    configuration, and after any call a key of the processed configuration
    is bound as in such a first call, while any other key is bound as before
    the call. *)
Theorem accumulator_lifecycle (c : pydict) (self : VeryComplicatedClass)
  (k : string) :
  internal_state (__init__ c) = []
  /\ process_config (__init__ c)
     = Ok {| config := c; internal_state := store_all transform_entry c [] |}
  /\ exists self',
       process_config self = Ok self'
       /\ getitem k (internal_state self')
          = if in_dec string_dec k (keys (config self))
            then getitem k (store_all transform_entry (config self) [])
            else getitem k (internal_state self).
Proof.
  split; [reflexivity|]. split; [apply process_config_fresh|].
  rewrite process_config_rule. eexists. split; [reflexivity|].
  cbn [internal_state].
  destruct (in_dec string_dec k (keys (config self))) as [Hin|Hnin].
  - now apply DictFacts.getitem_store_all_bound_any.
  - now apply DictFacts.getitem_store_all_other.
Qed.

(** C8.  The order in which the entries of a configuration are processed
    does not matter: for every permutation of its entries the transformation
    returns a result equal, as a mapping, to the result for the original
    order, since what is stored under a key is computed from the entry of
    that key alone. *)
Theorem process_config_order_irrelevant (c c' : pydict) :
  NoDup (keys c) -> Permutation c c' ->
  exists self1 self2,
    process_config (__init__ c) = Ok self1
    /\ process_config (__init__ c') = Ok self2
    /\ dict_eq (internal_state self1) (internal_state self2)
    /\ Permutation (internal_state self1) (internal_state self2)
    /\ (forall key value,
          In (key, value) c ->
          getitem key (internal_state self1) = Some (transform_entry key value)
          /\ getitem key (internal_state self2)
             = Some (transform_entry key value)).
Proof.
  intros Hc Hperm.
  assert (Hc' : NoDup (keys c')).
  { eapply Permutation_NoDup; [|exact Hc]. now apply Permutation_map. }
  rewrite !process_config_fresh. do 2 eexists.
  split; [reflexivity|]. split; [reflexivity|]. cbn [internal_state].
  assert (Hp : Permutation (map_values transform_entry c)
                           (map_values transform_entry c')).
  { now apply Permutation_map. }
  split; [|split].
  - rewrite !DictFacts.store_all_empty by assumption.
    apply DictFacts.getitem_Permutation; [|exact Hp].
    now rewrite DictFacts.keys_map_values.
  - now rewrite !DictFacts.store_all_empty by assumption.
  - intros key value Hin. split.
    + now apply DictFacts.getitem_store_all_bound.
    + apply DictFacts.getitem_store_all_bound; [exact Hc'|].
      eapply Permutation_in; [exact Hperm | exact Hin].
Qed.

Lemma process_config_order_irrelevant_witness :
  exists self1 self2,
    process_config (__init__ [("multiply", VInt 12); ("textData", VStr "hello")])
    = Ok self1
    /\ process_config
         (__init__ [("textData", VStr "hello"); ("multiply", VInt 12)])
       = Ok self2
    /\ dict_eq (internal_state self1) (internal_state self2)
    /\ Permutation (internal_state self1) (internal_state self2)
    /\ (forall key value,
          In (key, value) [("multiply", VInt 12); ("textData", VStr "hello")] ->
          getitem key (internal_state self1) = Some (transform_entry key value)
          /\ getitem key (internal_state self2)
             = Some (transform_entry key value)).
Proof.
  apply process_config_order_irrelevant.
  - repeat constructor; simpl; intuition discriminate.
  - apply perm_swap.
Defined.

(** C9.  The transformation never raises: on every transformer
    [process_config] returns, every value has an arm of the dispatch that
    runs to its end, and a value that is neither text, integer, sequence nor
    mapping is stored as it is by the catch-all arm. *)
Theorem process_config_never_raises (self : VeryComplicatedClass)
  (key : string) (value : pyvalue) :
  (exists self', process_config self = Ok self')
  /\ (forall e, process_config self <> Raise e)
  /\ (exists stored,
        process_entry self (key, value)
        = Ok (set_internal_state key stored self))
  /\ (forall f,
        process_entry self (key, VFloat f)
        = Ok (set_internal_state key (VFloat f) self))
  /\ process_entry self (key, VNone) = Ok (set_internal_state key VNone self)
  /\ (forall l,
        process_entry self (key, VTuple l)
        = Ok (set_internal_state key (VTuple l) self))
  /\ (forall l,
        process_entry self (key, VSet l)
        = Ok (set_internal_state key (VSet l) self)).
Proof.
  split; [rewrite process_config_rule; eexists; reflexivity|].
  split; [intros e; rewrite process_config_rule; discriminate|].
  split; [rewrite process_entry_rule; eexists; reflexivity|].
  repeat split; reflexivity.
Qed.

(** C10.  The transformation does not change the configuration: after one
    call, or any number of calls, the configuration held by the transformer,
    with everything nested in it, is the one given to the constructor; a
    call writes into the accumulator only. *)
Theorem process_config_preserves_config (c : pydict) (n : nat)
  (self : VeryComplicatedClass) :
  (exists self', process_config (__init__ c) = Ok self' /\ config self' = c)
  /\ (exists self',
        process_config_times n (__init__ c) = Ok self' /\ config self' = c)
  /\ (exists self',
        process_config self = Ok self'
        /\ config self' = config self
        /\ internal_state self'
           = store_all transform_entry (config self) (internal_state self)).
Proof.
  split; [rewrite process_config_fresh; eexists; split; reflexivity|].
  split; [apply (process_config_times_config n (__init__ c))|].
  rewrite process_config_rule. eexists. repeat split; reflexivity.
Qed.

(** ** [MyUtilityClass.process] *)

Module MyUtilityFacts.
Import MyUtilityClass.

Lemma in_range (n i : Z) : In i (range n) <-> 0 <= i < n.
Proof.
  unfold range. rewrite in_map_iff. split.
  - intros (k & <- & Hk). apply in_seq in Hk. lia.
  - intros Hi. exists (Z.to_nat i). split; [lia|]. apply in_seq. lia.
Qed.

Lemma range_nonpositive (n : Z) : n <= 0 -> range n = [].
Proof.
  intros Hn. unfold range. replace (Z.to_nat n) with 0%nat by lia. reflexivity.
Qed.

Lemma range_app (n m : Z) :
  0 <= n <= m ->
  range m
  = (range n ++ map Z.of_nat (seq (Z.to_nat n) (Z.to_nat m - Z.to_nat n)))%list.
Proof.
  intros Hnm. unfold range. rewrite <- map_app. f_equal.
  replace (Z.to_nat m) with (Z.to_nat n + (Z.to_nat m - Z.to_nat n))%nat at 1
    by lia.
  apply seq_app.
Qed.

Lemma seq_sorted (start len : nat) :
  StronglySorted Z.lt (map Z.of_nat (seq start len)).
Proof.
  revert start. induction len as [|len IH]; intros start; simpl.
  - constructor.
  - constructor; [apply IH|].
    apply Forall_forall. intros x Hx. apply in_map_iff in Hx.
    destruct Hx as (k & <- & Hk). apply in_seq in Hk. lia.
Qed.

Lemma filter_sorted (p : Z -> bool) (l : list Z) :
  StronglySorted Z.lt l -> StronglySorted Z.lt (filter p l).
Proof.
  induction 1 as [|x l Hl IH Hx]; simpl; [constructor|].
  destruct (p x); [|exact IH].
  constructor; [exact IH|].
  apply Forall_forall. intros y Hy. apply filter_In in Hy.
  rewrite Forall_forall in Hx. now apply Hx.
Qed.

(** The loop appends the selected integers in order: it is a filter. *)
Lemma loop_filter (l acc : list Z) :
  fold_left (fun result i => if selected i then (result ++ [i])%list else result)
            l acc
  = (acc ++ filter selected l)%list.
Proof.
  revert acc. induction l as [|i l IH]; intros acc; simpl.
  - now rewrite app_nil_r.
  - rewrite IH. destruct (selected i); [|reflexivity].
    now rewrite <- app_assoc.
Qed.

Lemma process_filter (self : t) :
  process self = filter selected (range (value self)).
Proof. unfold process. now rewrite loop_filter. Qed.

Lemma selected_iff (i : Z) :
  selected i = true
  <-> (i mod 2 = 0 /\ i < 10) \/ (i > 15 /\ i mod 3 = 0).
Proof.
  unfold selected.
  rewrite orb_true_iff, !andb_true_iff, !Z.eqb_eq, Z.ltb_lt, Z.gtb_gt.
  tauto.
Qed.

(** Between 10 and 17 no integer is selected. *)
Lemma selected_gap (i : Z) : 9 <= i <= 17 -> selected i = false.
Proof.
  intros Hi. apply not_true_is_false. rewrite selected_iff.
  assert (i = 9 \/ i = 10 \/ i = 11 \/ i = 12 \/ i = 13 \/ i = 14 \/ i = 15
          \/ i = 16 \/ i = 17) as Hcases by lia.
  intros [[He Hl]|[Hg Hm]].
  - assert (i = 9) by lia. subst i. discriminate He.
  - assert (i = 16 \/ i = 17) as [-> | ->] by lia; discriminate Hm.
Qed.

Lemma filter_none {A : Type} (p : A -> bool) (l : list A) :
  (forall x, In x l -> p x = false) -> filter p l = [].
Proof.
  induction l as [|x l IH]; intros Hl; simpl; [reflexivity|].
  rewrite (Hl x) by now left. apply IH. intros y Hy. apply Hl. now right.
Qed.

End MyUtilityFacts.

(** X1.  [process] returns exactly the integers [i] with [0 <= i < value]
    that are even and below 10, or multiples of 3 above 15; it returns them
    in strictly increasing order, hence none twice. *)
Theorem process_selects (self : MyUtilityClass.t) :
  (forall i,
      In i (MyUtilityClass.process self)
      <-> 0 <= i < MyUtilityClass.value self
          /\ ((i mod 2 = 0 /\ i < 10) \/ (i > 15 /\ i mod 3 = 0)))
  /\ StronglySorted Z.lt (MyUtilityClass.process self)
  /\ NoDup (MyUtilityClass.process self).
Proof.
  rewrite MyUtilityFacts.process_filter.
  assert (Hs : StronglySorted Z.lt
                 (filter MyUtilityClass.selected
                         (range (MyUtilityClass.value self)))).
  { apply MyUtilityFacts.filter_sorted, MyUtilityFacts.seq_sorted. }
  split; [|split; [exact Hs|]].
  - intros i.
    rewrite filter_In, MyUtilityFacts.in_range, MyUtilityFacts.selected_iff.
    tauto.
  - induction Hs as [|x l Hl IH Hx]; constructor; [|exact IH].
    intros Hin. rewrite Forall_forall in Hx. specialize (Hx x Hin). lia.
Qed.

(** X2.  A value of 0 or less gives the empty list, and for every value from
    9 to 18 the result is the same five integers 0, 2, 4, 6, 8: nothing
    between 9 and 17 is selected. *)
Theorem process_edges (self : MyUtilityClass.t) :
  (MyUtilityClass.value self <= 0 /\ MyUtilityClass.process self = [])
  \/ (9 <= MyUtilityClass.value self <= 18
      /\ MyUtilityClass.process self = [0; 2; 4; 6; 8])
  \/ (0 < MyUtilityClass.value self < 9
      /\ MyUtilityClass.process self
         = filter Z.even (range (MyUtilityClass.value self)))
  \/ (18 < MyUtilityClass.value self
      /\ exists l,
           MyUtilityClass.process self = ([0; 2; 4; 6; 8] ++ 18 :: l)%list).
Proof.
  rewrite MyUtilityFacts.process_filter.
  destruct (Z_le_gt_dec (MyUtilityClass.value self) 0) as [H0|H0].
  { left. split; [exact H0|].
    now rewrite MyUtilityFacts.range_nonpositive. }
  right.
  destruct (Z_lt_le_dec (MyUtilityClass.value self) 9) as [H9|H9].
  { right. left. split; [lia|].
    apply filter_ext_in. intros i Hi. apply MyUtilityFacts.in_range in Hi.
    unfold MyUtilityClass.selected.
    destruct (Z.gtb_spec i 15); [lia|].
    destruct (Z.ltb_spec i 10); [|lia].
    rewrite andb_true_r, andb_false_l, orb_false_r. symmetry. apply Zeven_mod. }
  destruct (Z_le_gt_dec (MyUtilityClass.value self) 18) as [H18|H18].
  - left. split; [lia|].
    rewrite (MyUtilityFacts.range_app 9) by lia. rewrite filter_app.
    rewrite (MyUtilityFacts.filter_none _ (map _ _)); [reflexivity|].
    intros x Hx. apply in_map_iff in Hx. destruct Hx as (k & <- & Hk).
    apply in_seq in Hk. apply MyUtilityFacts.selected_gap. lia.
  - right. right. split; [lia|].
    rewrite (MyUtilityFacts.range_app 19) by lia. rewrite filter_app.
    eexists. change (filter MyUtilityClass.selected (range 19))
      with ([0; 2; 4; 6; 8] ++ [18])%list.
    rewrite <- app_assoc. reflexivity.
Qed.

(** X3.  Raising the value only extends the result: the list for a smaller
    value is a prefix of the list for a larger one. *)
Theorem process_prefix (self self' : MyUtilityClass.t) :
  MyUtilityClass.value self <= MyUtilityClass.value self' ->
  exists l,
    MyUtilityClass.process self' = (MyUtilityClass.process self ++ l)%list.
Proof.
  intros Hle. rewrite !MyUtilityFacts.process_filter.
  destruct (Z_le_gt_dec (MyUtilityClass.value self) 0) as [H0|H0].
  - rewrite (MyUtilityFacts.range_nonpositive _ H0). simpl. now eexists.
  - rewrite (MyUtilityFacts.range_app (MyUtilityClass.value self)
                                      (MyUtilityClass.value self')) by lia.
    rewrite filter_app. now eexists.
Qed.

Lemma process_prefix_witness :
  exists l,
    MyUtilityClass.process (MyUtilityClass.__init__ "UtilityTest" 20)
    = (MyUtilityClass.process (MyUtilityClass.__init__ "short" 5) ++ l)%list.
Proof.
  apply process_prefix. simpl. lia.
Defined.

(** ** [fibonacci_generator] *)

Module FibonacciFacts.

Lemma fib_step (n : nat) : fib (S (S n)) = fib (S n) + fib n.
Proof. reflexivity. Qed.

Lemma fib_nonneg (n : nat) : 0 <= fib n /\ 0 <= fib (S n).
Proof.
  induction n as [|n [IH1 IH2]]; [simpl; lia|].
  split; [exact IH2|]. rewrite fib_step. lia.
Qed.

Lemma fib_succ_le (n : nat) : fib n <= fib (S n).
Proof.
  destruct n as [|n]; [simpl; lia|].
  rewrite fib_step. pose proof (fib_nonneg n). lia.
Qed.

Lemma fib_monotone (n m : nat) : (n <= m)%nat -> fib n <= fib m.
Proof.
  induction 1 as [|m Hm IH]; [lia|].
  pose proof (fib_succ_le m). lia.
Qed.

Lemma fib_positive (n : nat) : 1 <= fib (S n).
Proof.
  induction n as [|n IH]; [simpl; lia|].
  rewrite fib_step. pose proof (fib_nonneg n). lia.
Qed.

(** From the second on, every Fibonacci number is at least its index
    less 1: the sequence is unbounded. *)
Lemma fib_grows (n : nat) : Z.of_nat n <= fib (S n).
Proof.
  induction n as [|n IH]; [simpl; lia|].
  rewrite fib_step. destruct n as [|n]; [simpl; lia|].
  pose proof (fib_positive n). lia.
Qed.

(** The loop started on two consecutive Fibonacci numbers, with more fuel
    than the distance [m] to a number above the limit, yields the Fibonacci
    numbers up to the first one above the limit. *)
Lemma fibonacci_loop_spec (limit : Z) (m : nat) :
  forall (n fuel : nat),
    limit < fib (n + m) -> (m < fuel)%nat ->
    exists k,
      (k <= m)%nat
      /\ fibonacci_loop fuel (fib n) (fib (S n)) limit
         = Some (map fib (seq n k))
      /\ (forall i, (n <= i < n + k)%nat -> fib i <= limit)
      /\ limit < fib (n + k).
Proof.
  induction m as [|m IH]; intros n fuel Hm Hfuel.
  - exists 0%nat. destruct fuel as [|fuel]; [lia|]. simpl.
    rewrite Nat.add_0_r in *.
    destruct (Z.leb_spec (fib n) limit); [lia|].
    repeat split; [lia | intros i Hi; lia | exact Hm].
  - destruct fuel as [|fuel]; [lia|]. cbn [fibonacci_loop].
    destruct (Z.leb_spec (fib n) limit) as [Hle|Hgt].
    + replace (fib n + fib (S n)) with (fib (S (S n)))
        by (rewrite fib_step; lia).
      destruct (IH (S n) fuel) as (k & Hk & Hrun & Hall & Hstop);
        [now replace (S n + m)%nat with (n + S m)%nat by lia | lia |].
      exists (S k). rewrite Hrun. simpl.
      repeat split; [lia | |].
      * intros i Hi. destruct (Nat.eq_dec i n) as [->|Hne]; [exact Hle|].
        apply Hall. lia.
      * now replace (n + S k)%nat with (S n + k)%nat by lia.
    + exists 0%nat. simpl. rewrite Nat.add_0_r.
      repeat split; [lia | intros i Hi; lia | lia].
Qed.

Lemma fib_above (limit : Z) : limit < fib (Z.to_nat limit + 2).
Proof.
  replace (Z.to_nat limit + 2)%nat with (S (S (Z.to_nat limit))) by lia.
  pose proof (fib_grows (S (Z.to_nat limit))). lia.
Qed.

End FibonacciFacts.

(** X4.  For every limit the generator stops, given fuel above
    [limit + 2]: it yields the Fibonacci numbers F(0), F(1), ... in order, up
    to and without the first one that exceeds the limit. *)
Theorem fibonacci_generator_yields (limit : Z) (fuel : nat) :
  (Z.to_nat limit + 2 < fuel)%nat ->
  exists k,
    fibonacci_generator fuel limit = Some (map fib (seq 0 k))
    /\ (forall i, (i < k)%nat -> fib i <= limit)
    /\ limit < fib k.
Proof.
  intros Hfuel.
  destruct (FibonacciFacts.fibonacci_loop_spec limit (Z.to_nat limit + 2)
              0%nat fuel) as (k & _ & Hrun & Hall & Hstop).
  - apply FibonacciFacts.fib_above.
  - exact Hfuel.
  - exists k. split; [exact Hrun|]. split; [|exact Hstop].
    intros i Hi. apply Hall. lia.
Qed.

Lemma fibonacci_generator_yields_witness :
  exists k,
    fibonacci_generator 60 50 = Some (map fib (seq 0 k))
    /\ (forall i, (i < k)%nat -> fib i <= 50)
    /\ 50 < fib k.
Proof.
  apply fibonacci_generator_yields. simpl. lia.
Defined.

Lemma fib_sorted (n k : nat) : StronglySorted Z.le (map fib (seq n k)).
Proof.
  revert n. induction k as [|k IH]; intros n; cbn [map seq]; constructor;
    [apply IH|].
  apply Forall_forall. intros v Hv. apply in_map_iff in Hv.
  destruct Hv as (i & <- & Hi). apply in_seq in Hi.
  apply FibonacciFacts.fib_monotone. lia.
Qed.

Lemma fib_strict (n : nat) : fib (S (S n)) < fib (S (S (S n))).
Proof.
  rewrite (FibonacciFacts.fib_step (S n)).
  pose proof (FibonacciFacts.fib_positive n). lia.
Qed.

Lemma fib_strict_sorted (n k : nat) :
  StronglySorted Z.lt (map fib (seq (S (S n)) k)).
Proof.
  revert n. induction k as [|k IH]; intros n; cbn [map seq]; constructor;
    [apply IH|].
  apply Forall_forall. intros v Hv. apply in_map_iff in Hv.
  destruct Hv as (i & <- & Hi). apply in_seq in Hi.
  pose proof (fib_strict n).
  pose proof (FibonacciFacts.fib_monotone (S (S (S n))) i). lia.
Qed.

(** X5.  The values yielded are exactly the Fibonacci numbers that do not
    exceed the limit, in non-decreasing order; nothing is yielded exactly
    when the limit is negative. *)
Theorem fibonacci_generator_complete (limit : Z) (fuel : nat) :
  (Z.to_nat limit + 2 < fuel)%nat ->
  exists l,
    fibonacci_generator fuel limit = Some l
    /\ (forall v, In v l <-> (exists i, v = fib i) /\ v <= limit)
    /\ Forall (fun v => 0 <= v <= limit) l
    /\ StronglySorted Z.le l
    /\ (l = [] <-> limit < 0).
Proof.
  intros Hfuel.
  destruct (FibonacciFacts.fibonacci_loop_spec limit (Z.to_nat limit + 2)
              0%nat fuel (FibonacciFacts.fib_above limit) Hfuel)
    as (k & _ & Hrun & Hall & Hstop).
  exists (map fib (seq 0 k)). split; [exact Hrun|].
  assert (Hin : forall v,
             In v (map fib (seq 0 k)) <-> (exists i, v = fib i) /\ v <= limit).
  { intros v. rewrite in_map_iff. split.
    - intros (i & <- & Hi). apply in_seq in Hi.
      split; [now exists i | apply Hall; lia].
    - intros [[i ->] Hle]. exists i. split; [reflexivity|]. apply in_seq.
      destruct (Nat.lt_ge_cases i k) as [Hlt|Hge]; [lia|].
      pose proof (FibonacciFacts.fib_monotone k i Hge). simpl in Hstop. lia. }
  split; [exact Hin|]. split; [|split; [apply fib_sorted|]].
  - apply Forall_forall. intros v Hv. apply Hin in Hv.
    destruct Hv as [[i ->] Hle]. pose proof (FibonacciFacts.fib_nonneg i). lia.
  - simpl in Hstop. split.
    + intros Hnil. destruct k as [|k]; [simpl in Hstop; lia | discriminate Hnil].
    + intros Hneg. destruct k as [|k]; [reflexivity|].
      specialize (Hall 0%nat). simpl in Hall. lia.
Qed.

Lemma fibonacci_generator_complete_witness :
  exists l,
    fibonacci_generator 60 50 = Some l
    /\ (forall v, In v l <-> (exists i, v = fib i) /\ v <= 50)
    /\ Forall (fun v => 0 <= v <= 50) l
    /\ StronglySorted Z.le l
    /\ (l = [] <-> 50 < 0).
Proof.
  apply fibonacci_generator_complete. simpl. lia.
Defined.

(** X6.  With a limit of 1 or more the generator yields 0, 1, 1 first: the
    value 1 comes twice, and everything after the first 1 is strictly
    increasing. *)
Theorem fibonacci_generator_repeats_one (limit : Z) (fuel : nat) :
  1 <= limit -> (Z.to_nat limit + 2 < fuel)%nat ->
  exists rest,
    fibonacci_generator fuel limit = Some (0 :: 1 :: 1 :: rest)
    /\ StronglySorted Z.lt (1 :: rest).
Proof.
  intros Hlimit Hfuel.
  destruct (FibonacciFacts.fibonacci_loop_spec limit (Z.to_nat limit + 2)
              0%nat fuel (FibonacciFacts.fib_above limit) Hfuel)
    as (k & _ & Hrun & Hall & Hstop).
  simpl in Hstop.
  destruct k as [|[|[|k]]]; try (simpl in Hstop; lia).
  exists (map fib (seq 3 k)). split; [exact Hrun|].
  apply (fib_strict_sorted 0 (S k)).
Qed.

Lemma fibonacci_generator_repeats_one_witness :
  exists rest,
    fibonacci_generator 60 50 = Some (0 :: 1 :: 1 :: rest)
    /\ StronglySorted Z.lt (1 :: rest).
Proof.
  apply fibonacci_generator_repeats_one; simpl; lia.
Defined.

(** The run of [main]: the Fibonacci numbers up to 50. *)
Example fibonacci_generator_main :
  fibonacci_generator 60 50 = Some [0; 1; 1; 2; 3; 5; 8; 13; 21; 34].
Proof. reflexivity. Qed.

(** ** [User] and [create_users] *)

Module UserFacts.

Lemma new_valid (username : string) (age : Z) :
  0 <= age ->
  User.new username age
  = User.Valid {| User.username := username; User.age := age |}.
Proof.
  intros Hage. unfold User.new, User.check_age.
  destruct (Z.ltb_spec age 0); [lia | reflexivity].
Qed.

Lemma new_invalid (username : string) (age : Z) :
  age < 0 -> User.new username age = User.ValueError "Age must be positive.".
Proof.
  intros Hage. unfold User.new, User.check_age.
  destruct (Z.ltb_spec age 0); [reflexivity | lia].
Qed.

Lemma comprehension_valid (starting_age idx : Z) (names : list string) :
  0 <= idx + starting_age ->
  User.comprehension
    (fun item => User.new (snd item) (fst item + starting_age))
    (enumerate_from idx names)
  = User.Valid
      (map (fun item =>
              {| User.username := snd item;
                 User.age := fst item + starting_age |})
           (enumerate_from idx names)).
Proof.
  revert idx. induction names as [|name names IH]; intros idx Hidx; simpl.
  - reflexivity.
  - rewrite new_valid by exact Hidx. rewrite IH by lia. reflexivity.
Qed.

Lemma length_enumerate_from {A : Type} (idx : Z) (l : list A) :
  List.length (enumerate_from idx l) = List.length l.
Proof.
  revert idx. induction l as [|x l IH]; intros idx; simpl; [reflexivity|].
  now rewrite IH.
Qed.

Lemma snd_enumerate_from {A : Type} (idx : Z) (l : list A) :
  map snd (enumerate_from idx l) = l.
Proof.
  revert idx. induction l as [|x l IH]; intros idx; simpl; [reflexivity|].
  now rewrite IH.
Qed.

Lemma fst_enumerate_from {A : Type} (idx : Z) (l : list A) :
  map fst (enumerate_from idx l)
  = map (fun i => idx + Z.of_nat i) (seq 0 (List.length l)).
Proof.
  revert idx. induction l as [|x l IH]; intros idx; simpl; [reflexivity|].
  rewrite IH, <- seq_shift, map_map. f_equal; [lia|].
  apply map_ext. intros i. lia.
Qed.

End UserFacts.

(** X7.  [create_users] fails exactly when there is a name and the starting
    age is negative, and then with the validator's error: the first user's
    age is the starting age itself, and a negative first age ends the
    comprehension even if later ages would be accepted. *)
Theorem create_users_fails_iff (names : list string) (starting_age : Z) :
  ((exists msg, create_users names starting_age = User.ValueError msg)
   <-> names <> [] /\ starting_age < 0)
  /\ (forall msg,
        create_users names starting_age = User.ValueError msg ->
        msg = "Age must be positive.").
Proof.
  unfold create_users, enumerate.
  destruct names as [|name names].
  - simpl. split; [|discriminate].
    split; [intros [msg H]; discriminate H | intros [H _]; now elim H].
  - destruct (Z.lt_ge_cases starting_age 0) as [Hneg|Hpos].
    + simpl. rewrite UserFacts.new_invalid by lia. split.
      * split; [intros _; split; [discriminate | exact Hneg]|].
        intros _. now eexists.
      * now intros msg [= <-].
    + rewrite UserFacts.comprehension_valid by lia. split; [|discriminate].
      split; [intros [msg H]; discriminate H | lia].
Qed.

(** X8.  With a starting age of 0 or more (0 is the default) [create_users]
    returns one user per name, in the order of the names, with the ages
    [starting_age], [starting_age + 1], ...; the age 0 is accepted. *)
Theorem create_users_content (names : list string) (starting_age : Z) :
  0 <= starting_age ->
  exists users,
    create_users names starting_age = User.Valid users
    /\ List.length users = List.length names
    /\ map User.username users = names
    /\ map User.age users
       = map (fun i => Z.of_nat i + starting_age)
             (seq 0 (List.length names)).
Proof.
  intros Hage. unfold create_users, enumerate.
  rewrite UserFacts.comprehension_valid by lia.
  eexists. split; [reflexivity|].
  split; [now rewrite length_map, UserFacts.length_enumerate_from|].
  split.
  - rewrite map_map. simpl. apply UserFacts.snd_enumerate_from.
  - rewrite map_map. simpl.
    rewrite <- (map_map fst (fun i => i + starting_age)).
    rewrite UserFacts.fst_enumerate_from, map_map. reflexivity.
Qed.

Lemma create_users_content_witness :
  exists users,
    create_users ["Charlie"; "Diana"; "Eve"] 0 = User.Valid users
    /\ List.length users = 3%nat
    /\ map User.username users = ["Charlie"; "Diana"; "Eve"]
    /\ map User.age users
       = map (fun i => Z.of_nat i + 0) (seq 0 3).
Proof.
  apply (create_users_content ["Charlie"; "Diana"; "Eve"] 0). lia.
Defined.

(** ** More on [VeryComplicatedClass] *)

Module TransformerFacts.

(** Two dictionaries with the same keys in the same order and the same
    value under every key are the same. *)
Lemma dict_ext (d1 d2 : pydict) :
  NoDup (keys d1) -> keys d1 = keys d2 -> dict_eq d1 d2 -> d1 = d2.
Proof.
  revert d2. induction d1 as [|[k1 v1] d1 IH]; intros [|[k2 v2] d2];
    simpl; intros Hnd Hkeys Heq; try discriminate; [reflexivity|].
  injection Hkeys as -> Hkeys. inversion Hnd as [|? ? Hk Hnd']; subst.
  pose proof (Heq k2) as Hhead. simpl in Hhead.
  rewrite String.eqb_refl in Hhead. injection Hhead as ->.
  f_equal. apply IH; [exact Hnd' | exact Hkeys |].
  intros k. destruct (String.eqb_spec k2 k) as [->|Hne].
  - transitivity (@None pyvalue).
    + now apply DictFacts.getitem_None.
    + symmetry. apply DictFacts.getitem_None. now rewrite <- Hkeys.
  - specialize (Heq k). simpl in Heq.
    destruct (String.eqb_spec k2 k); [contradiction | exact Heq].
Qed.

(** Storing under keys that are all bound keeps the keys and their order. *)
Lemma keys_store_all_bound (f : string -> pyvalue -> pyvalue)
  (d acc : pydict) :
  (forall k, In k (keys d) -> In k (keys acc)) ->
  keys (store_all f d acc) = keys acc.
Proof.
  revert acc. induction d as [|[k0 v0] d IH]; intros acc Hsub; [reflexivity|].
  change (keys (store_all f d (setitem k0 (f k0 v0) acc)) = keys acc).
  assert (Hk0 : In k0 (keys acc)) by (apply Hsub; now left).
  rewrite IH.
  - now apply DictFacts.keys_setitem_bound.
  - intros k Hk. rewrite DictFacts.keys_setitem_bound by exact Hk0.
    apply Hsub. now right.
Qed.

(** Storing the same dictionary a second time changes nothing. *)
Lemma store_all_idempotent (f : string -> pyvalue -> pyvalue)
  (d acc : pydict) :
  NoDup (keys acc) ->
  store_all f d (store_all f d acc) = store_all f d acc.
Proof.
  intros Hacc.
  assert (Hsub : forall k, In k (keys d) -> In k (keys (store_all f d acc))).
  { intros k Hk. apply DictFacts.keys_store_all. now right. }
  symmetry. apply dict_ext.
  - now apply DictFacts.NoDup_keys_store_all.
  - symmetry. now apply keys_store_all_bound.
  - intros k. destruct (in_dec string_dec k (keys d)) as [Hin|Hnin].
    + now apply DictFacts.getitem_store_all_bound_any.
    + symmetry. now apply DictFacts.getitem_store_all_other.
Qed.

(** The keys of the accumulator are pairwise distinct in every state of the
    life of a transformer. *)
Lemma lifecycle_NoDup (self : VeryComplicatedClass) :
  lifecycle self -> NoDup (keys (internal_state self)).
Proof.
  induction 1 as [c | self self' Hlife IH Hcall | c self Hlife IH].
  - constructor.
  - rewrite process_config_rule in Hcall. injection Hcall as <-.
    cbn [internal_state]. now apply DictFacts.NoDup_keys_store_all.
  - exact IH.
Qed.

Lemma process_config_twice (self : VeryComplicatedClass) :
  NoDup (keys (internal_state self)) ->
  (self' <- process_config self ;; process_config self')
  = process_config self.
Proof.
  intros Hnd. rewrite !process_config_rule. cbn [bind].
  rewrite process_config_rule. cbn [config internal_state].
  now rewrite store_all_idempotent.
Qed.

Lemma process_config_times_once (n : nat) (self : VeryComplicatedClass) :
  NoDup (keys (internal_state self)) ->
  process_config_times (S n) self = process_config self.
Proof.
  revert self. induction n as [|n IH]; intros self Hnd.
  - cbn [process_config_times]. rewrite process_config_rule. reflexivity.
  - change (process_config_times (S (S n)) self)
      with (self' <- process_config self ;; process_config_times (S n) self').
    rewrite <- (process_config_twice self Hnd) at 2.
    rewrite process_config_rule. cbn [bind].
    apply IH. cbn [internal_state].
    now apply DictFacts.NoDup_keys_store_all.
Qed.

End TransformerFacts.

(** X9.  Calling [process_config] again on a transformer whose configuration
    has not changed is harmless: after any number of calls, one or more, the
    object is in the state that a single call leaves. *)
Theorem process_config_repeat (self : VeryComplicatedClass) (n : nat) :
  lifecycle self ->
  process_config_times (S n) self = process_config self.
Proof.
  intros Hlife. apply TransformerFacts.process_config_times_once.
  now apply TransformerFacts.lifecycle_NoDup.
Qed.

Lemma process_config_repeat_witness :
  process_config_times 3 (__init__ complex_config)
  = process_config (__init__ complex_config).
Proof.
  apply (process_config_repeat (__init__ complex_config) 2).
  apply lifecycle_init.
Defined.

(** X10.  Whatever the calls and the changes of configuration, the
    accumulator of a transformer never holds a key twice, and a call never
    removes a key from it. *)
Theorem lifecycle_accumulator_keys (self : VeryComplicatedClass) :
  lifecycle self ->
  NoDup (keys (internal_state self))
  /\ exists self',
       process_config self = Ok self'
       /\ lifecycle self'
       /\ NoDup (keys (internal_state self'))
       /\ (forall k,
             In k (keys (internal_state self)) ->
             In k (keys (internal_state self'))).
Proof.
  intros Hlife.
  split; [now apply TransformerFacts.lifecycle_NoDup|].
  eexists. split; [apply process_config_rule|].
  assert (Hlife' : lifecycle
            {| config := config self;
               internal_state :=
                 store_all transform_entry (config self)
                           (internal_state self) |}).
  { eapply lifecycle_call; [exact Hlife | apply process_config_rule]. }
  split; [exact Hlife'|].
  split; [now apply TransformerFacts.lifecycle_NoDup|].
  intros k Hk. cbn [internal_state]. apply DictFacts.keys_store_all. now left.
Qed.

Lemma lifecycle_accumulator_keys_witness :
  NoDup (keys (internal_state (__init__ complex_config)))
  /\ exists self',
       process_config (__init__ complex_config) = Ok self'
       /\ lifecycle self'
       /\ NoDup (keys (internal_state self'))
       /\ (forall k,
             In k (keys (internal_state (__init__ complex_config))) ->
             In k (keys (internal_state self'))).
Proof.
  apply lifecycle_accumulator_keys. apply lifecycle_init.
Defined.





Lemma long_sequence_rule_numbers (l : list pyvalue) :
  Forall (fun v => (exists n, v = VInt n) \/ (exists f, v = VFloat f))
         (long_sequence_rule l).
Proof.
  unfold long_sequence_rule. apply Forall_forall. intros v Hv.
  apply in_map_iff in Hv. destruct Hv as (x & <- & Hx).
  apply filter_In in Hx. destruct Hx as [_ Hnum].
  destruct x; try discriminate Hnum; simpl; eauto.
Qed.

Lemma filter_all {A : Type} (p : A -> bool) (l : list A) :
  Forall (fun x => p x = true) l -> filter p l = l.
Proof.
  induction 1 as [|x l Hx Hl IH]; simpl; [reflexivity|].
  now rewrite Hx, IH.
Qed.

(** X12.  A sequence of more than 5 elements is stored as a sequence of
    integers and floats only, never longer than the input: it keeps its
    length when every element is a number, and it is stored as the empty
    sequence when no element is, so that six or more strings are lost while
    five or fewer would each be transformed. *)
Theorem long_sequence_keeps_numbers_only (self : VeryComplicatedClass)
  (key : string) (list_val : list pyvalue) :
  (5 < List.length list_val)%nat ->
  exists stored,
    process_entry self (key, VList list_val)
    = Ok (set_internal_state key (VList stored) self)
    /\ Forall (fun v => (exists n, v = VInt n) \/ (exists f, v = VFloat f))
              stored
    /\ (List.length stored <= List.length list_val)%nat
    /\ (Forall (fun v => is_numeric v = true) list_val ->
        List.length stored = List.length list_val)
    /\ (Forall (fun v => is_numeric v = false) list_val -> stored = []).
Proof.
  intros Hlong. rewrite process_entry_rule. cbn [transform_entry].
  destruct (Nat.ltb_spec 5 (List.length list_val)) as [_|Hshort]; [|lia].
  exists (long_sequence_rule list_val). split; [reflexivity|].
  split; [apply long_sequence_rule_numbers|].
  unfold long_sequence_rule. rewrite length_map. split; [apply filter_length_le|].
  split.
  - intros Hall. now rewrite filter_all.
  - intros Hnone. rewrite MyUtilityFacts.filter_none; [reflexivity|].
    intros x Hx. rewrite Forall_forall in Hnone. now apply Hnone.
Qed.

Lemma long_sequence_keeps_numbers_only_witness :
  exists stored,
    process_entry (__init__ [])
      ("words",
        VList [VStr "a"; VStr "b"; VStr "c"; VStr "d"; VStr "e"; VStr "f"])
    = Ok (set_internal_state "words" (VList stored) (__init__ []))
    /\ Forall (fun v => (exists n, v = VInt n) \/ (exists f, v = VFloat f))
              stored
    /\ (List.length stored <= 6)%nat
    /\ (Forall (fun v => is_numeric v = true)
               [VStr "a"; VStr "b"; VStr "c"; VStr "d"; VStr "e"; VStr "f"] ->
        List.length stored = 6%nat)
    /\ (Forall (fun v => is_numeric v = false)
               [VStr "a"; VStr "b"; VStr "c"; VStr "d"; VStr "e"; VStr "f"] ->
        stored = []).
Proof.
  apply (long_sequence_keeps_numbers_only (__init__ []) "words"
           [VStr "a"; VStr "b"; VStr "c"; VStr "d"; VStr "e"; VStr "f"]).
  simpl. lia.
Defined.

(** X13.  The result lists the keys in the order of the configuration: a
    first call on a new transformer stores, entry after entry and in the
    same order, each key with the value computed from its own entry. *)
Theorem process_config_keeps_order (c : pydict) :
  NoDup (keys c) ->
  exists self',
    process_config (__init__ c) = Ok self'
    /\ keys (internal_state self') = keys c
    /\ internal_state self' = map_values transform_entry c
    /\ List.length (internal_state self') = List.length c.
Proof.
  intros Hc. rewrite process_config_fresh. eexists. split; [reflexivity|].
  cbn [internal_state]. rewrite DictFacts.store_all_empty by exact Hc.
  split; [apply DictFacts.keys_map_values|]. split; [reflexivity|].
  unfold map_values. apply length_map.
Qed.

Lemma process_config_keeps_order_witness :
  exists self',
    process_config (__init__ complex_config) = Ok self'
    /\ keys (internal_state self') = keys complex_config
    /\ internal_state self' = map_values transform_entry complex_config
    /\ List.length (internal_state self') = List.length complex_config.
Proof.
  apply process_config_keeps_order.
  repeat constructor; simpl; intuition discriminate.
Defined.

(** X14.  On an integer the "add" rule always increases the value, by 10 at
    least and 200 at most; the "multiply" rule keeps the sign, gives 0 for 0
    only, and at least doubles the size.  Neither rule preserves the order
    of its inputs: 10 and 11 give 30 and 22 under "multiply", -101 and -100
    give 99 and -50 under "add". *)
Theorem internal_helper_bounds (n : Z) :
  (exists r,
      _internal_helper "add" (VInt n) = Ok (VInt r)
      /\ n + 10 <= r <= n + 200)
  /\ (exists r,
        _internal_helper "multiply" (VInt n) = Ok (VInt r)
        /\ Z.sgn r = Z.sgn n
        /\ 2 * Z.abs n <= Z.abs r <= 3 * Z.abs n)
  /\ ~ (forall a b ra rb,
          a <= b ->
          _internal_helper "multiply" (VInt a) = Ok (VInt ra) ->
          _internal_helper "multiply" (VInt b) = Ok (VInt rb) ->
          ra <= rb)
  /\ ~ (forall a b ra rb,
          a <= b ->
          _internal_helper "add" (VInt a) = Ok (VInt ra) ->
          _internal_helper "add" (VInt b) = Ok (VInt rb) ->
          ra <= rb).
Proof.
  split; [|split; [|split]].
  - rewrite internal_helper_int. eexists. split; [reflexivity|].
    destruct (transformNumber_cases "add" n)
      as [(E & _)|[(E & _)|[(_ & ? & ? & ->)|[(_ & ? & ? & ->)
         |[(_ & ? & ->)|(_ & E & _)]]]]];
      try discriminate E; try lia.
    now elim E.
  - rewrite internal_helper_int. eexists. split; [reflexivity|].
    destruct (transformNumber_cases "multiply" n)
      as [(_ & ? & ->)|[(_ & ? & ->)|[(E & _)|[(E & _)
         |[(E & _)|(E & _)]]]]];
      try discriminate E; try lia.
    now elim E.
  - intros H.
    assert (Hle : 30 <= 22) by (apply (H 10 11); [lia | reflexivity..]).
    lia.
  - intros H.
    assert (Hle : 99 <= -50) by (apply (H (-101) (-100)); [lia | reflexivity..]).
    lia.
Qed.
